(** * DNSKEY key generation and private-key export (keygen.go)

    A shallow embedding of [RR_DNSKEY.Generate] and
    [RR_DNSKEY.PrivateKeyString] together with the parts of Go's standard
    library they call (math/big, encoding/base64, strconv, crypto/rsa,
    crypto/ecdsa), followed by the properties of the two methods. *)

From Stdlib Require Import ZArith Znumtheory Zcong Lia List String Ascii Bool.
From Stdlib Require Import DecimalString.
Import ListNotations.
Local Open Scope Z_scope.

(** ** Run-time outcomes

    A Go call either returns or panics.  The panics that the code of
    keygen.go can raise are the three below. *)

Inductive panic : Type :=
| IndexOutOfRange
| DivisionByZero
| NilDereference.

Inductive outcome (A : Type) : Type :=
| Returns (a : A)
| Panics (why : panic).

Arguments Returns {A} a.
Arguments Panics {A} why.

Definition bind {A B : Type} (m : outcome A) (k : A -> outcome B) : outcome B :=
  match m with
  | Returns a => k a
  | Panics why => Panics why
  end.

Notation "x <- m ;; k" := (bind m (fun x => k))
  (at level 61, m at next level, right associativity).

(** A byte is a [Z] in the range 0..255; a [[]byte] is a list of them. *)
Definition byte : Type := Z.

Definition is_byte (b : byte) : Prop := 0 <= b < 256.

(** [s[i]] on a slice: panics when the index is out of range. *)
Definition index {A : Type} (s : list A) (i : nat) : outcome A :=
  match nth_error s i with
  | Some a => Returns a
  | None => Panics IndexOutOfRange
  end.

(** ** math/big

    A [*big.Int] is an integer of unbounded size, here a [Z].  Where a
    method can hand back a nil [*big.Int] the result is an [option]. *)

Module big.

Definition Int : Type := Z.

Definition NewInt (x : Z) : Int := x.

(** [z.Sub(x, y)] sets z to x - y. *)
Definition Sub (x y : Int) : Int := x - y.

(** [z.Mod(x, y)]: Euclidean modulus, 0 <= z < |y|; a run-time panic
    for y = 0. *)
Definition Mod (x y : Int) : outcome Int :=
  if y =? 0 then Panics DivisionByZero else Returns (x mod Z.abs y).

(** The base-256 digits of [n], most significant first, pushed in front
    of [acc].  Every round removes eight bits, so as many rounds as [n]
    has bits are always enough. *)
Fixpoint bytes_loop (fuel : nat) (n : Z) (acc : list byte) : list byte :=
  match fuel with
  | O => acc
  | S fuel' =>
      if n =? 0 then acc
      else bytes_loop fuel' (Z.shiftr n 8) (Z.land n 255 :: acc)
  end.

(** [x.Bytes()]: the absolute value of x as a big-endian byte slice,
    without leading zero bytes (empty for 0). *)
Definition Bytes (x : Int) : list byte :=
  match Z.abs x with
  | Zpos p => bytes_loop (Pos.size_nat p) (Zpos p) []
  | _ => []
  end.

(** [z.SetBytes(buf)]: buf read as a big-endian unsigned integer. *)
Definition SetBytes (buf : list byte) : Int :=
  fold_left (fun acc b => Z.lor (Z.shiftl acc 8) b) buf 0.

(** [z.GCD(x, y, a, b)]: d = gcd(a, b) with cofactors, d = a*x + b*y. *)
Definition GCD (a b : Int) : Int * Int * Int := Z.extgcd a b.

(** [z.ModInverse(g, n)]: the inverse of g in Z/nZ, in the range
    0 <= z < |n|; nil when g and n are not relatively prime. *)
Definition ModInverse (g n : Int) : option Int :=
  let n := Z.abs n in
  let g := if g <? 0 then g mod n else g in
  let '(x, _, d) := GCD g n in
  if d =? 1 then Some (x mod n) else None.

(** [z.Exp(x, y, m)]: x**y mod |m|.  For m = 0 the result is x**y, or 1
    when y <= 0.  For m <> 0 and y < 0 the inverse of x modulo m replaces
    x and |y| replaces y, and the result is nil when x and m are not
    relatively prime.  The sign is that of x for an odd y: with a
    negative x and an odd negative y a result z that is not zero is
    handed back as |m| - z. *)
Definition Exp (x y m : Int) : option Int :=
  if m =? 0 then Some (if y <=? 0 then 1 else x ^ y)
  else if y <? 0 then
    match ModInverse x m with
    | Some inverse =>
        let z := (inverse ^ (- y)) mod Z.abs m in
        Some (if (x <? 0) && Z.odd y && negb (z =? 0) then Z.abs m - z else z)
    | None => None
    end
  else Some ((x ^ y) mod Z.abs m).

End big.

(** ** encoding/base64, standard encoding with padding *)

Module base64.

Definition encodeStd : string :=
  "ABCDEFGHIJKLMNOPQRSTUVWXYZabcdefghijklmnopqrstuvwxyz0123456789+/".

Definition padChar : ascii := "="%char.

(** The character of a six-bit value. *)
Definition enc (v : Z) : ascii :=
  match String.get (Z.to_nat v) encodeStd with
  | Some c => c
  | None => padChar
  end.

(** Three source bytes become four characters; a remainder of one or
    two bytes is encoded into two or three characters and padded. *)
Fixpoint EncodeToString (src : list byte) : string :=
  match src with
  | [] => EmptyString
  | [a] =>
      let v := Z.shiftl a 16 in
      String (enc (Z.land (Z.shiftr v 18) 63))
        (String (enc (Z.land (Z.shiftr v 12) 63))
           (String padChar (String padChar EmptyString)))
  | [a; b] =>
      let v := Z.lor (Z.shiftl a 16) (Z.shiftl b 8) in
      String (enc (Z.land (Z.shiftr v 18) 63))
        (String (enc (Z.land (Z.shiftr v 12) 63))
           (String (enc (Z.land (Z.shiftr v 6) 63))
              (String padChar EmptyString)))
  | a :: b :: c :: rest =>
      let v := Z.lor (Z.lor (Z.shiftl a 16) (Z.shiftl b 8)) c in
      String (enc (Z.land (Z.shiftr v 18) 63))
        (String (enc (Z.land (Z.shiftr v 12) 63))
           (String (enc (Z.land (Z.shiftr v 6) 63))
              (String (enc (Z.land v 63))
                 (EncodeToString rest))))
  end.

(** The six-bit value of a character of the alphabet. *)
Fixpoint find_char (c : ascii) (alphabet : string) (i : Z) : option Z :=
  match alphabet with
  | EmptyString => None
  | String a rest => if Ascii.eqb a c then Some i else find_char c rest (i + 1)
  end.

Definition dec (c : ascii) : option Z := find_char c encodeStd 0.

(** Fuel-free decoder for padded input: four characters at a time. *)
Fixpoint DecodeString (s : string) : option (list byte) :=
  match s with
  | EmptyString => Some []
  | String c0 (String c1 (String c2 (String c3 rest))) =>
      match dec c0, dec c1 with
      | Some v0, Some v1 =>
          let b0 := Z.lor (Z.shiftl v0 2) (Z.shiftr v1 4) in
          if Ascii.eqb c2 padChar then
            match rest with
            | EmptyString =>
                if Ascii.eqb c3 padChar then Some [b0] else None
            | _ => None
            end
          else
            match dec c2 with
            | Some v2 =>
                let b1 := Z.lor (Z.shiftl (Z.land v1 15) 4) (Z.shiftr v2 2) in
                if Ascii.eqb c3 padChar then
                  match rest with
                  | EmptyString => Some [b0; b1]
                  | _ => None
                  end
                else
                  match dec c3, DecodeString rest with
                  | Some v3, Some tl =>
                      Some (b0 :: b1 :: Z.lor (Z.shiftl (Z.land v2 3) 6) v3 :: tl)
                  | _, _ => None
                  end
            | None => None
            end
      | _, _ => None
      end
  | _ => None
  end.

End base64.

(** ** strconv *)

Module strconv.

(** [strconv.Itoa] on a non-negative value: its decimal digits. *)
Definition Itoa (n : N) : string := NilZero.string_of_uint (N.to_uint n).

End strconv.

(** ** crypto/elliptic, crypto/rsa, crypto/ecdsa: the key types *)

Module elliptic.

(** An [elliptic.Curve] interface value: nil, or one of the two named
    curves the generator asks for. *)
Inductive Curve : Type :=
| nilCurve
| P256
| P384.

End elliptic.

Module rsa.

Record PublicKey : Type := { N : big.Int; E : Z }.

(** Go embeds the public key in the private key ([t.PublicKey.N]); the
    embedded field is [Public] here, the type keeps its name.  The key
    and its [*big.Int] fields (N, D, the entries of Primes) are set: a
    nil pointer among them is no value of these types. *)
Record PrivateKey : Type :=
  { Public : PublicKey; D : big.Int; Primes : list big.Int }.

End rsa.

Module ecdsa.

Record PublicKey : Type :=
  { Curve : elliptic.Curve; X : big.Int; Y : big.Int }.

Record PrivateKey : Type := { Public : PublicKey; D : big.Int }.

End ecdsa.

(** ** Package dns: errors, the private-key wrapper, the key record *)

(** A non-nil [error] value: one of the package's two error variables, or
    an error made by a library (which cannot be either of them).  A Go
    [error] is an [option error], nil being [None]. *)
Inductive error : Type :=
| ErrKeySize
| ErrAlg
| LibraryError (msg : string).

(** [type PrivateKey interface{}]: the nil interface value, a
    [*rsa.PrivateKey], a [*ecdsa.PrivateKey], or a value of any other
    dynamic type. *)
Inductive PrivateKey : Type :=
| nilKey
| RSAPrivateKey (t : rsa.PrivateKey)
| ECDSAPrivateKey (t : ecdsa.PrivateKey)
| OtherValue (dynamic_type : string).

(** Modelled from the spec: the record type [RR_DNSKEY] is declared outside
    keygen.go.  The spec's Key Record "holds the chosen Algorithm and a
    public-key byte payload"; what else the resource record carries is the
    one component [Rest]. *)
Record RR_DNSKEY (RestT : Type) : Type :=
  { Algorithm : N; PublicKey : list byte; Rest : RestT }.

Arguments Algorithm {RestT} _.
Arguments PublicKey {RestT} _.
Arguments Rest {RestT} _.

(** Modelled from the spec: the record's RSA public-key encoding (the
    method [setPublicKeyRSA] and its inverse are not in keygen.go).  The
    spec gives the payload as "exponent-length-prefixed exponent+modulus":
    one byte (a uint8) holding the length of the exponent, the exponent,
    the modulus, the integers as big-endian bytes. *)
Definition encodeRSA (e : Z) (n : big.Int) : list byte :=
  let ebytes := big.Bytes (big.NewInt e) in
  Z.of_nat (List.length ebytes) mod 256 :: ebytes ++ big.Bytes n.

(** Modelled from the spec: the inverse reading of the RSA payload, the
    pair (exponent, modulus). *)
Definition decodeRSA (payload : list byte) : option (Z * big.Int) :=
  match payload with
  | [] => None
  | explen :: body =>
      let k := Z.to_nat explen in
      if (List.length body <? k)%nat then None
      else Some (big.SetBytes (firstn k body), big.SetBytes (skipn k body))
  end.

(** Modelled from the spec: the record's elliptic-curve public-key
    encoding ([setPublicKeyCurve] is not in keygen.go), "concatenated X
    and Y curve coordinates". *)
Definition encodeCurve (x y : big.Int) : list byte :=
  big.Bytes x ++ big.Bytes y.

(** Modelled from the spec: [setPublicKeyRSA] "writes the public exponent
    and modulus into the record's public-key field"; nothing else of the
    record changes. *)
Definition setPublicKeyRSA {RestT : Type} (r : RR_DNSKEY RestT)
    (e : Z) (n : big.Int) : RR_DNSKEY RestT :=
  {| Algorithm := Algorithm r; PublicKey := encodeRSA e n; Rest := Rest r |}.

(** Modelled from the spec: [setPublicKeyCurve] "writes the X and Y
    coordinates into the record". *)
Definition setPublicKeyCurve {RestT : Type} (r : RR_DNSKEY RestT)
    (x y : big.Int) : RR_DNSKEY RestT :=
  {| Algorithm := Algorithm r; PublicKey := encodeCurve x y; Rest := Rest r |}.

(** Modelled from the spec: [unpackBase64] is defined outside keygen.go;
    every exported value is "standard base64" of the bytes it is given. *)
Definition unpackBase64 (b : list byte) : string := base64.EncodeToString b.

(** Reading an exported value back: base64 to bytes to integer. *)
Definition packBase64Int (s : string) : option big.Int :=
  option_map big.SetBytes (base64.DecodeString s).

(** [case a, b, c:] of an expression switch on [x]. *)
Definition case_of (x : N) (labels : list N) : bool := existsb (N.eqb x) labels.

(** A method call on a [*big.Int] that may be nil. *)
Definition deref (z : option big.Int) : outcome big.Int :=
  match z with
  | Some v => Returns v
  | None => Panics NilDereference
  end.

(** The prime factors of an RSA private key: [Primes[0]] and [Primes[1]]
    are two different primes [p] and [q]. *)
Definition rsa_primes (t : rsa.PrivateKey) (p q : Z) : Prop :=
  nth_error (rsa.Primes t) 0 = Some p /\
  nth_error (rsa.Primes t) 1 = Some q /\
  prime p /\ prime q /\ p <> q.

(** The layout of the private-key file, format v1.3: the format line, then
    one line [Key: Value] for every field, each line closed by a newline. *)
Fixpoint key_value_lines (fields : list (string * string)) : string :=
  match fields with
  | [] => EmptyString
  | (key, value) :: rest =>
      (key ++ ": " ++ value ++ String "010" (key_value_lines rest))%string
  end.

Definition private_key_v13 (fields : list (string * string)) : string :=
  ("Private-key-format: v1.3" ++ String "010" (key_value_lines fields))%string.

(** An integer as the export writes it. *)
Definition export_int (x : big.Int) : string := unpackBase64 (big.Bytes x).

(** The newline character, and the texts that do not hold one. *)
Definition newline : ascii := "010"%char.

Fixpoint no_newline (s : string) : bool :=
  match s with
  | EmptyString => true
  | String c rest => negb (Ascii.eqb c newline) && no_newline rest
  end.

(** The lines of a text, each of them closed by a newline in the text
    (a last line may go without). *)
Fixpoint lines (s : string) : list string :=
  match s with
  | EmptyString => []
  | String c rest =>
      if Ascii.eqb c newline then EmptyString :: lines rest
      else match lines rest with
           | [] => [String c EmptyString]
           | l :: ls => String c l :: ls
           end
  end.

(** A field as its line shows it. *)
Definition key_value (field : string * string) : string :=
  (fst field ++ ": " ++ snd field)%string.

(** Primality by trial division, to check concrete keys. *)
Definition primeb (p : Z) : bool :=
  (1 <? p) &&
  forallb (fun n => negb (p mod Z.of_nat n =? 0)) (seq 2 (Z.to_nat p - 2)).

(** ** keygen.go *)

Section dns.

(** What the record carries besides Algorithm and PublicKey. *)
Context {RestT : Type}.

(** The algorithm constants are declared outside keygen.go. *)
Variables RSAMD5 RSASHA1 RSASHA256 RSASHA1NSEC3SHA1 RSASHA512 : N.
Variables ECDSAP256SHA256Y ECDSAP384SHA384Y : N.

(** The mnemonic table [Alg_str]; a Go map yields the empty string for
    a key it does not hold. *)
Variable Alg_str : N -> string.

(** [rand.Reader] and the two library generators that read it.  A
    generator hands back the random source as it left it and either an
    error or a key. *)
Context {Rand : Type}.
Variable rsa_GenerateKey : Rand -> Z -> Rand * (string + rsa.PrivateKey).
Variable ecdsa_GenerateKey :
  elliptic.Curve -> Rand -> Rand * (string + ecdsa.PrivateKey).

(** What a call of [Generate] leaves behind: the two results, the record
    and the random source. *)
Definition generated : Type :=
  (PrivateKey * option error * RR_DNSKEY RestT * Rand)%type.

(** The first switch of [Generate]: [Some e] when it returns [nil, e],
    [None] when control leaves the switch. *)
Definition size_switch (r : RR_DNSKEY RestT) (bits : Z) : option error :=
  if case_of (Algorithm r) [RSAMD5; RSASHA1; RSASHA256; RSASHA1NSEC3SHA1] then
    if (bits <? 512) || (bits >? 4096) then Some ErrKeySize else None
  else if case_of (Algorithm r) [RSASHA512] then
    if (bits <? 1024) || (bits >? 4096) then Some ErrKeySize else None
  else if case_of (Algorithm r) [ECDSAP256SHA256Y] then
    if negb (bits =? 256) then Some ErrKeySize else None
  else if case_of (Algorithm r) [ECDSAP384SHA384Y] then
    if negb (bits =? 384) then Some ErrKeySize else None
  else None.

(** The curve chosen by the inner switch; [c] starts as nil. *)
Definition curve_switch (r : RR_DNSKEY RestT) : elliptic.Curve :=
  if case_of (Algorithm r) [ECDSAP256SHA256Y] then elliptic.P256
  else if case_of (Algorithm r) [ECDSAP384SHA384Y] then elliptic.P384
  else elliptic.nilCurve.

(** The body of the RSA case of the second switch. *)
Definition rsa_case (r : RR_DNSKEY RestT) (bits : Z) (rnd : Rand) : generated :=
  match rsa_GenerateKey rnd bits with
  | (rnd', inl err) => (nilKey, Some (LibraryError err), r, rnd')
  | (rnd', inr priv) =>
      let r' := setPublicKeyRSA r (rsa.E (rsa.Public priv))
                  (rsa.N (rsa.Public priv)) in
      (RSAPrivateKey priv, None, r', rnd')
  end.

(** The body of the ECDSA case, after [c] has been chosen. *)
Definition ecdsa_case (r : RR_DNSKEY RestT) (c : elliptic.Curve) (rnd : Rand)
  : generated :=
  match ecdsa_GenerateKey c rnd with
  | (rnd', inl err) => (nilKey, Some (LibraryError err), r, rnd')
  | (rnd', inr priv) =>
      let r' := setPublicKeyCurve r (ecdsa.X (ecdsa.Public priv))
                  (ecdsa.Y (ecdsa.Public priv)) in
      (ECDSAPrivateKey priv, None, r', rnd')
  end.

(** The second switch: [Some] of what the call returns from inside the
    switch, [None] when control leaves the switch. *)
Definition generate_switch (r : RR_DNSKEY RestT) (bits : Z) (rnd : Rand)
  : option generated :=
  if case_of (Algorithm r)
       [RSAMD5; RSASHA1; RSASHA256; RSASHA512; RSASHA1NSEC3SHA1] then
    Some (rsa_case r bits rnd)
  else if case_of (Algorithm r) [ECDSAP256SHA256Y; ECDSAP384SHA384Y] then
    let c := curve_switch r in
    Some (ecdsa_case r c rnd)
  else Some (nilKey, Some ErrAlg, r, rnd).

(** [func (r *RR_DNSKEY) Generate(bits int) (PrivateKey, error)] *)
Definition Generate (r : RR_DNSKEY RestT) (bits : Z) (rnd : Rand)
  : generated :=
  match size_switch r bits with
  | Some e => (nilKey, Some e, r, rnd)
  | None =>
      match generate_switch r bits rnd with
      | Some result => result
      | None => (nilKey, None, r, rnd) (* Dummy return *)
      end
  end.

(** The parts of what a call of [Generate] leaves behind. *)
Definition key_of (g : generated) : PrivateKey := fst (fst (fst g)).
Definition err_of (g : generated) : option error := snd (fst (fst g)).
Definition record_of (g : generated) : RR_DNSKEY RestT := snd (fst g).
Definition rand_of (g : generated) : Rand := snd g.

(** The table of accepted sizes, as the specification gives it. *)
Definition rsa_family (alg : N) : Prop :=
  In alg [RSAMD5; RSASHA1; RSASHA256; RSASHA1NSEC3SHA1; RSASHA512].

Definition rsa_min_bits (alg : N) : Z :=
  if (alg =? RSASHA512)%N then 1024 else 512.

Definition rsa_bits_allowed (alg : N) (bits : Z) : Prop :=
  rsa_min_bits alg <= bits <= 4096.

Definition recognized (alg : N) : Prop :=
  In alg [RSAMD5; RSASHA1; RSASHA256; RSASHA1NSEC3SHA1; RSASHA512;
          ECDSAP256SHA256Y; ECDSAP384SHA384Y].

(** [func (r *RR_DNSKEY) PrivateKeyString(p PrivateKey) (s string)] *)
Definition PrivateKeyString (r : RR_DNSKEY RestT) (p : PrivateKey)
  : outcome string :=
  match p with
  | RSAPrivateKey t =>
      let algorithm :=
        (strconv.Itoa (Algorithm r) ++ " (" ++ Alg_str (Algorithm r) ++ ")")%string in
      let modulus := unpackBase64 (big.Bytes (rsa.N (rsa.Public t))) in
      let e := big.NewInt (rsa.E (rsa.Public t)) in
      let publicExponent := unpackBase64 (big.Bytes e) in
      let privateExponent := unpackBase64 (big.Bytes (rsa.D t)) in
      Primes0 <- index (rsa.Primes t) 0 ;;
      let prime1 := unpackBase64 (big.Bytes Primes0) in
      Primes1 <- index (rsa.Primes t) 1 ;;
      let prime2 := unpackBase64 (big.Bytes Primes1) in
      let one := big.NewInt 1 in
      let minusone := big.NewInt (-1) in
      let p_1 := big.Sub Primes0 one in
      let q_1 := big.Sub Primes1 one in
      exp1 <- big.Mod (rsa.D t) p_1 ;;
      exp2 <- big.Mod (rsa.D t) q_1 ;;
      let coeff := big.Exp Primes1 minusone Primes0 in
      let exponent1 := unpackBase64 (big.Bytes exp1) in
      let exponent2 := unpackBase64 (big.Bytes exp2) in
      coeff' <- deref coeff ;;
      let coefficient := unpackBase64 (big.Bytes coeff') in
      Returns ("Private-key-format: v1.3" ++ String "010" (
               "Algorithm: " ++ algorithm ++ String "010" (
               "Modules: " ++ modulus ++ String "010" (
               "PublicExponent: " ++ publicExponent ++ String "010" (
               "PrivateExponent: " ++ privateExponent ++ String "010" (
               "Prime1: " ++ prime1 ++ String "010" (
               "Prime2: " ++ prime2 ++ String "010" (
               "Exponent1: " ++ exponent1 ++ String "010" (
               "Exponent2: " ++ exponent2 ++ String "010" (
               "Coefficient: " ++ coefficient ++ String "010" EmptyString))))))))))%string
  | ECDSAPrivateKey _ => Returns "TODO"%string
  | _ => Returns EmptyString
  end.

End dns.

(** ** Concrete data for the examples *)

Definition demo_rsa_key : rsa.PrivateKey :=
  {| rsa.Public := {| rsa.N := 3233; rsa.E := 65537 |};
     rsa.D := 2753;
     rsa.Primes := [61; 53] |}.

Definition demo_ecdsa_key (c : elliptic.Curve) : ecdsa.PrivateKey :=
  {| ecdsa.Public := {| ecdsa.Curve := c; ecdsa.X := 7; ecdsa.Y := 11 |};
     ecdsa.D := 5 |}.

(** The same key with other prime factors written in. *)
Definition demo_rsa_key_with (primes : list big.Int) : rsa.PrivateKey :=
  {| rsa.Public := rsa.Public demo_rsa_key;
     rsa.D := rsa.D demo_rsa_key;
     rsa.Primes := primes |}.

(** A random source that counts how often it was read. *)
Definition demo_rsa_GenerateKey (rnd : nat) (bits : Z)
  : nat * (string + rsa.PrivateKey) := (S rnd, inr demo_rsa_key).

Definition demo_ecdsa_GenerateKey (c : elliptic.Curve) (rnd : nat)
  : nat * (string + ecdsa.PrivateKey) := (S rnd, inr (demo_ecdsa_key c)).

(** A generator whose random source fails with the error [msg]. *)
Definition failing_rsa_GenerateKey (msg : string) (rnd : nat) (bits : Z)
  : nat * (string + rsa.PrivateKey) := (S rnd, inl msg).

(** The DNSSEC algorithm numbers and mnemonics of the IANA registry. *)
Definition demo_Alg_str (alg : N) : string :=
  match alg with
  | 1%N => "RSAMD5"
  | 5%N => "RSASHA1"
  | 7%N => "RSASHA1-NSEC3-SHA1"
  | 8%N => "RSASHA256"
  | 10%N => "RSASHA512"
  | 13%N => "ECDSAP256SHA256"
  | 14%N => "ECDSAP384SHA384"
  | _ => EmptyString
  end.

Definition demo_record (alg : N) : RR_DNSKEY unit :=
  {| Algorithm := alg; PublicKey := []; Rest := tt |}.

(** The two methods at these constants, with the library generators
    given. *)
Definition demo_Generate
    (rsa_GenerateKey : nat -> Z -> nat * (string + rsa.PrivateKey))
    (ecdsa_GenerateKey : elliptic.Curve -> nat -> nat * (string + ecdsa.PrivateKey))
  : RR_DNSKEY unit -> Z -> nat -> generated :=
  Generate 1 5 8 7 10 13 14 rsa_GenerateKey ecdsa_GenerateKey.

Definition demo_PrivateKeyString : RR_DNSKEY unit -> PrivateKey -> outcome string :=
  PrivateKeyString demo_Alg_str.

(** ** Properties of the library models *)

(** *** Shifts and masks as arithmetic *)

Lemma lor_shiftl_low (a b k : Z) :
  0 <= k -> 0 <= b < 2 ^ k -> Z.lor (Z.shiftl a k) b = a * 2 ^ k + b.
Proof.
  intros Hk Hb.
  assert (Hland : Z.land (Z.shiftl a k) b = 0).
  { apply Z.bits_inj'; intros n Hn.
    rewrite Z.land_spec, Z.bits_0.
    destruct (Z.lt_ge_cases n k) as [Hlt | Hge].
    - rewrite Z.shiftl_spec_low by assumption. reflexivity.
    - rewrite <- (Z.mod_small b (2 ^ k)) by assumption.
      rewrite Z.mod_pow2_bits_high by lia.
      apply andb_false_r. }
  rewrite <- Z.lxor_lor by assumption.
  rewrite <- Z.add_nocarry_lxor by assumption.
  rewrite Z.shiftl_mul_pow2 by assumption.
  reflexivity.
Qed.

Lemma land_255 (n : Z) : Z.land n 255 = n mod 256.
Proof. change 255 with (Z.ones 8). rewrite Z.land_ones by lia. reflexivity. Qed.

Lemma land_63 (n : Z) : Z.land n 63 = n mod 64.
Proof. change 63 with (Z.ones 6). rewrite Z.land_ones by lia. reflexivity. Qed.

Lemma land_15 (n : Z) : Z.land n 15 = n mod 16.
Proof. change 15 with (Z.ones 4). rewrite Z.land_ones by lia. reflexivity. Qed.

Lemma land_3 (n : Z) : Z.land n 3 = n mod 4.
Proof. change 3 with (Z.ones 2). rewrite Z.land_ones by lia. reflexivity. Qed.

Lemma shiftr_div (n k : Z) : 0 <= k -> Z.shiftr n k = n / 2 ^ k.
Proof. intros Hk. apply Z.shiftr_div_pow2. assumption. Qed.

(** *** [Bytes] and [SetBytes] *)

Lemma push_byte (n : Z) :
  Z.lor (Z.shiftl (Z.shiftr n 8) 8) (Z.land n 255) = n.
Proof.
  rewrite land_255, lor_shiftl_low.
  - rewrite shiftr_div by lia. change (2 ^ 8) with 256.
    pose proof (Z.div_mod n 256). lia.
  - lia.
  - change (2 ^ 8) with 256. apply Z.mod_pos_bound. lia.
Qed.

Lemma shiftr_8_bound (n : Z) (fuel : nat) :
  0 <= n < 2 ^ Z.of_nat (S fuel) -> 0 <= Z.shiftr n 8 < 2 ^ Z.of_nat fuel.
Proof.
  intros [Hlo Hhi].
  rewrite shiftr_div by lia. change (2 ^ 8) with 256.
  rewrite Nat2Z.inj_succ, Z.pow_succ_r in Hhi by lia.
  split.
  - apply Z.div_pos; lia.
  - apply Z.div_lt_upper_bound; lia.
Qed.

(** Reading back what [bytes_loop] wrote in front of [acc] continues from
    the number it was given. *)
Lemma bytes_loop_value (fuel : nat) :
  forall (n : Z) (acc : list byte),
    0 <= n < 2 ^ Z.of_nat fuel ->
    big.SetBytes (big.bytes_loop fuel n acc)
    = fold_left (fun a b => Z.lor (Z.shiftl a 8) b) acc n.
Proof.
  unfold big.SetBytes.
  induction fuel as [| fuel IH]; intros n acc Hn.
  - simpl in *. assert (n = 0) by lia. subst n. reflexivity.
  - cbn [big.bytes_loop].
    destruct (Z.eqb_spec n 0) as [-> | Hnz].
    + reflexivity.
    + rewrite IH by (apply shiftr_8_bound; assumption).
      cbn [fold_left]. rewrite push_byte. reflexivity.
Qed.

Lemma pos_lt_pow2_size (p : positive) : Zpos p < 2 ^ Z.of_nat (Pos.size_nat p).
Proof.
  induction p as [p IH | p IH |]; cbn [Pos.size_nat];
    rewrite ?Nat2Z.inj_succ, ?Z.pow_succ_r by lia; lia.
Qed.

Lemma pow2_size_le (p : positive) : 2 ^ Z.of_nat (Pos.size_nat p) <= 2 * Zpos p.
Proof.
  induction p as [p IH | p IH |]; cbn [Pos.size_nat];
    rewrite ?Nat2Z.inj_succ, ?Z.pow_succ_r by lia; lia.
Qed.

(** [SetBytes] undoes [Bytes] up to the sign, which [Bytes] drops. *)
Lemma SetBytes_Bytes (x : big.Int) : big.SetBytes (big.Bytes x) = Z.abs x.
Proof.
  unfold big.Bytes.
  pose proof (Z.abs_nonneg x) as Hnonneg.
  destruct (Z.abs x) as [| p | p]; [reflexivity | | lia].
  rewrite bytes_loop_value.
  - reflexivity.
  - pose proof (pos_lt_pow2_size p). lia.
Qed.

Lemma bytes_loop_is_byte (fuel : nat) :
  forall (n : Z) (acc : list byte),
    Forall is_byte acc -> Forall is_byte (big.bytes_loop fuel n acc).
Proof.
  induction fuel as [| fuel IH]; intros n acc Hacc; cbn [big.bytes_loop].
  - assumption.
  - destruct (n =? 0); [assumption |].
    apply IH. constructor; [| assumption].
    unfold is_byte. rewrite land_255. apply Z.mod_pos_bound. lia.
Qed.

Lemma Bytes_is_byte (x : big.Int) : Forall is_byte (big.Bytes x).
Proof.
  unfold big.Bytes. destruct (Z.abs x); try constructor.
  apply bytes_loop_is_byte. constructor.
Qed.

(** What [bytes_loop] writes for a positive number starts with a byte
    that is not zero. *)
Lemma bytes_loop_minimal (fuel : nat) :
  forall (n : Z) (acc : list byte),
    0 < n < 2 ^ Z.of_nat fuel ->
    exists d ds, big.bytes_loop fuel n acc = d :: ds ++ acc /\ d <> 0.
Proof.
  induction fuel as [| fuel IH]; intros n acc Hn.
  - simpl in Hn. lia.
  - cbn [big.bytes_loop].
    destruct (Z.eqb_spec n 0) as [-> | Hnz]; [lia |].
    assert (Hb : 0 <= Z.shiftr n 8 < 2 ^ Z.of_nat fuel)
      by (apply shiftr_8_bound; lia).
    destruct (Z.eq_dec (Z.shiftr n 8) 0) as [Hz | Hpos].
    + rewrite Hz. exists (Z.land n 255), [].
      split.
      * destruct fuel; reflexivity.
      * pose proof (push_byte n) as Hp. rewrite Hz in Hp.
        rewrite Z.shiftl_0_l, Z.lor_0_l in Hp. lia.
    + destruct (IH (Z.shiftr n 8) (Z.land n 255 :: acc)) as (d & ds & Heq & Hd);
        [lia |].
      exists d, (ds ++ [Z.land n 255]). split; [| assumption].
      rewrite Heq, <- app_assoc. reflexivity.
Qed.

(** [Bytes] is the minimal-length representation: no leading zero byte. *)
Lemma Bytes_minimal (x : big.Int) : hd 1 (big.Bytes x) <> 0.
Proof.
  unfold big.Bytes. destruct (Z.abs x) as [| p | p]; cbn [hd]; try lia.
  destruct (bytes_loop_minimal (Pos.size_nat p) (Zpos p) []) as (d & ds & Heq & Hd).
  - pose proof (pos_lt_pow2_size p). lia.
  - rewrite Heq. cbn [hd]. assumption.
Qed.

Lemma bytes_loop_length (fuel : nat) :
  forall (n : Z) (acc : list byte),
    (List.length (big.bytes_loop fuel n acc) <= fuel + List.length acc)%nat.
Proof.
  induction fuel as [| fuel IH]; intros n acc; cbn [big.bytes_loop].
  - lia.
  - destruct (n =? 0); [lia |].
    specialize (IH (Z.shiftr n 8) (Z.land n 255 :: acc)). cbn [List.length] in IH. lia.
Qed.

(** A Go [int] needs fewer than 256 bytes (at most eight). *)
Lemma Bytes_length_int (x : Z) :
  - 2 ^ 63 <= x < 2 ^ 63 -> (List.length (big.Bytes x) < 256)%nat.
Proof.
  intros Hx. unfold big.Bytes.
  destruct (Z.abs x) as [| p | p] eqn:Habs; cbn [List.length]; try lia.
  pose proof (bytes_loop_length (Pos.size_nat p) (Zpos p) []) as Hlen.
  cbn [List.length] in Hlen.
  assert (Hsz : (Pos.size_nat p < 65)%nat).
  { pose proof (pow2_size_le p) as Hp.
    assert (Hlt : 2 ^ Z.of_nat (Pos.size_nat p) < 2 ^ 65) by lia.
    apply Z.pow_lt_mono_r_iff in Hlt; lia. }
  lia.
Qed.

(** *** base64 *)

Lemma list_ind3 {A : Type} (P : list A -> Prop) :
  P [] ->
  (forall a, P [a]) ->
  (forall a b, P [a; b]) ->
  (forall a b c l, P l -> P (a :: b :: c :: l)) ->
  forall l, P l.
Proof.
  intros H0 H1 H2 H3. fix IH 1.
  intros [| a [| b [| c l]]].
  - exact H0.
  - apply H1.
  - apply H2.
  - apply H3. apply IH.
Qed.

(** Every six-bit value has its own character, and none is the padding. *)
Lemma dec_enc (v : Z) :
  0 <= v < 64 ->
  base64.dec (base64.enc v) = Some v /\
  Ascii.eqb (base64.enc v) base64.padChar = false.
Proof.
  intros Hv.
  assert (Hall : forallb
            (fun n => match base64.dec (base64.enc (Z.of_nat n)) with
                      | Some w => (w =? Z.of_nat n) &&
                                  negb (Ascii.eqb (base64.enc (Z.of_nat n)) base64.padChar)
                      | None => false
                      end) (seq 0 64) = true) by (vm_compute; reflexivity).
  rewrite forallb_forall in Hall.
  specialize (Hall (Z.to_nat v)).
  rewrite Z2Nat.id in Hall by lia.
  assert (Hin : In (Z.to_nat v) (seq 0 64)) by (apply in_seq; lia).
  specialize (Hall Hin).
  destruct (base64.dec (base64.enc v)) as [w |]; [| discriminate].
  apply andb_true_iff in Hall. destruct Hall as [Hw Hpad].
  apply Z.eqb_eq in Hw. subst w.
  apply negb_true_iff in Hpad. auto.
Qed.

Lemma pack3 (a b c : byte) :
  is_byte b -> is_byte c ->
  Z.lor (Z.lor (Z.shiftl a 16) (Z.shiftl b 8)) c = a * 65536 + b * 256 + c.
Proof.
  unfold is_byte. intros Hb Hc.
  replace (Z.shiftl a 16) with (Z.shiftl (Z.shiftl a 8) 8)
    by (rewrite Z.shiftl_shiftl by lia; reflexivity).
  rewrite <- Z.shiftl_lor.
  rewrite (lor_shiftl_low a b 8) by (change (2 ^ 8) with 256; lia).
  rewrite lor_shiftl_low by (change (2 ^ 8) with 256; lia).
  change (2 ^ 8) with 256. lia.
Qed.

Lemma pack2 (a b : byte) :
  is_byte b -> Z.lor (Z.shiftl a 16) (Z.shiftl b 8) = a * 65536 + b * 256 + 0.
Proof.
  intros Hb. rewrite <- (pack3 a b 0) by (unfold is_byte; assumption || lia).
  rewrite Z.lor_0_r. reflexivity.
Qed.

Lemma pack1 (a : byte) : Z.shiftl a 16 = a * 65536 + 0 * 256 + 0.
Proof. rewrite Z.shiftl_mul_pow2 by lia. change (2 ^ 16) with 65536. lia. Qed.

(** The four six-bit groups of three bytes, and the bytes back from them. *)
Lemma sextets (a b c : byte) :
  is_byte a -> is_byte b -> is_byte c ->
  let v := a * 65536 + b * 256 + c in
  let s0 := Z.land (Z.shiftr v 18) 63 in
  let s1 := Z.land (Z.shiftr v 12) 63 in
  let s2 := Z.land (Z.shiftr v 6) 63 in
  let s3 := Z.land v 63 in
  (0 <= s0 < 64 /\ 0 <= s1 < 64 /\ 0 <= s2 < 64 /\ 0 <= s3 < 64) /\
  Z.lor (Z.shiftl s0 2) (Z.shiftr s1 4) = a /\
  Z.lor (Z.shiftl (Z.land s1 15) 4) (Z.shiftr s2 2) = b /\
  Z.lor (Z.shiftl (Z.land s2 3) 6) s3 = c.
Proof.
  intros Ha Hb Hc v s0 s1 s2 s3. unfold is_byte in Ha, Hb, Hc.
  assert (E0 : s0 = v / 262144 mod 64)
    by (unfold s0; rewrite land_63, shiftr_div by lia; reflexivity).
  assert (E1 : s1 = v / 4096 mod 64)
    by (unfold s1; rewrite land_63, shiftr_div by lia; reflexivity).
  assert (E2 : s2 = v / 64 mod 64)
    by (unfold s2; rewrite land_63, shiftr_div by lia; reflexivity).
  assert (E3 : s3 = v mod 64) by (unfold s3; apply land_63).
  clearbody s0 s1 s2 s3.
  assert (B0 : 0 <= s0 < 64) by (subst s0; apply Z.mod_pos_bound; lia).
  assert (B1 : 0 <= s1 < 64) by (subst s1; apply Z.mod_pos_bound; lia).
  assert (B2 : 0 <= s2 < 64) by (subst s2; apply Z.mod_pos_bound; lia).
  assert (B3 : 0 <= s3 < 64) by (subst s3; apply Z.mod_pos_bound; lia).
  split; [auto |].
  rewrite land_15, land_3, !shiftr_div by lia.
  change (2 ^ 4) with 16. change (2 ^ 2) with 4.
  assert (L0 : 0 <= s1 / 16 < 2 ^ 2)
    by (change (2 ^ 2) with 4; Z.div_mod_to_equations; lia).
  assert (L1 : 0 <= s2 / 4 < 2 ^ 4)
    by (change (2 ^ 4) with 16; Z.div_mod_to_equations; lia).
  assert (L2 : 0 <= s3 < 2 ^ 6) by (change (2 ^ 6) with 64; lia).
  rewrite (lor_shiftl_low s0 _ 2) by (assumption || lia).
  rewrite (lor_shiftl_low (s1 mod 16) _ 4) by (assumption || lia).
  rewrite (lor_shiftl_low (s2 mod 4) _ 6) by (assumption || lia).
  change (2 ^ 2) with 4. change (2 ^ 4) with 16. change (2 ^ 6) with 64.
  clear B0 B1 B2 B3 L0 L1 L2. subst s0 s1 s2 s3. subst v.
  repeat split; Z.div_mod_to_equations; lia.
Qed.

(** Decoding undoes encoding. *)
Theorem DecodeString_EncodeToString (src : list byte) :
  Forall is_byte src ->
  base64.DecodeString (base64.EncodeToString src) = Some src.
Proof.
  induction src as [| a | a b | a b c rest IH] using list_ind3; intros Hsrc.
  - reflexivity.
  - inversion_clear Hsrc as [| ? ? Ha _].
    cbn [base64.EncodeToString].
    rewrite pack1.
    destruct (sextets a 0 0 Ha) as ((B0 & B1 & B2 & B3) & Ea & _ & _);
      try (unfold is_byte; lia).
    cbn [base64.DecodeString].
    destruct (dec_enc _ B0) as [-> _]. destruct (dec_enc _ B1) as [-> _].
    rewrite Ascii.eqb_refl. rewrite Ea. reflexivity.
  - inversion_clear Hsrc as [| ? ? Ha Hsrc']. inversion_clear Hsrc' as [| ? ? Hb _].
    cbn [base64.EncodeToString].
    rewrite pack2 by assumption.
    destruct (sextets a b 0 Ha Hb) as ((B0 & B1 & B2 & B3) & Ea & Eb & _);
      try (unfold is_byte; lia).
    cbn [base64.DecodeString].
    destruct (dec_enc _ B0) as [-> _]. destruct (dec_enc _ B1) as [-> _].
    destruct (dec_enc _ B2) as [-> ->].
    rewrite Ascii.eqb_refl. rewrite Ea, Eb. reflexivity.
  - inversion_clear Hsrc as [| ? ? Ha Hsrc']. inversion_clear Hsrc' as [| ? ? Hb Hsrc].
    inversion_clear Hsrc as [| ? ? Hc Hrest].
    cbn [base64.EncodeToString].
    rewrite pack3 by assumption.
    destruct (sextets a b c Ha Hb Hc) as ((B0 & B1 & B2 & B3) & Ea & Eb & Ec).
    cbn [base64.DecodeString].
    destruct (dec_enc _ B0) as [-> _]. destruct (dec_enc _ B1) as [-> _].
    destruct (dec_enc _ B2) as [-> ->]. destruct (dec_enc _ B3) as [-> ->].
    rewrite IH by assumption. rewrite Ea, Eb, Ec. reflexivity.
Qed.

(** An exported integer can be read back from its text (up to the sign,
    which the export drops). *)
Lemma packBase64Int_unpackBase64 (x : big.Int) :
  packBase64Int (unpackBase64 (big.Bytes x)) = Some (Z.abs x).
Proof.
  unfold packBase64Int, unpackBase64.
  rewrite DecodeString_EncodeToString by apply Bytes_is_byte.
  cbn [option_map]. rewrite SetBytes_Bytes. reflexivity.
Qed.

(** *** Lines of text *)

Lemma append_assoc (a b c : string) :
  ((a ++ b) ++ c)%string = (a ++ (b ++ c))%string.
Proof.
  induction a as [| x a IH]; cbn [append].
  - reflexivity.
  - rewrite IH. reflexivity.
Qed.

Lemma no_newline_append (a b : string) :
  no_newline (a ++ b) = no_newline a && no_newline b.
Proof.
  induction a as [| x a IH]; cbn [append no_newline].
  - reflexivity.
  - rewrite IH. apply andb_assoc.
Qed.

(** A line without newline in front of a newline is the first line. *)
Lemma lines_first (l rest : string) :
  no_newline l = true ->
  lines (l ++ String newline rest) = l :: lines rest.
Proof.
  induction l as [| x l IH]; cbn [append no_newline lines]; intros Hl.
  - rewrite Ascii.eqb_refl. reflexivity.
  - apply andb_true_iff in Hl. destruct Hl as [Hx Hl].
    apply negb_true_iff in Hx. rewrite Hx, (IH Hl). reflexivity.
Qed.

Lemma lines_key_value_lines (fields : list (string * string)) :
  Forall (fun field => no_newline (key_value field) = true) fields ->
  lines (key_value_lines fields) = map key_value fields.
Proof.
  induction 1 as [| [key value] fields Hfield _ IH]; cbn [key_value_lines map].
  - reflexivity.
  - change (String "010" (key_value_lines fields))
      with (String newline (key_value_lines fields)).
    replace (key ++ ": " ++ value ++ String newline (key_value_lines fields))%string
      with (key_value (key, value) ++ String newline (key_value_lines fields))%string
      by (unfold key_value; cbn [fst snd]; rewrite !append_assoc; reflexivity).
    rewrite lines_first by assumption.
    rewrite IH. reflexivity.
Qed.

Lemma lines_private_key_v13 (fields : list (string * string)) :
  Forall (fun field => no_newline (key_value field) = true) fields ->
  lines (private_key_v13 fields) =
  "Private-key-format: v1.3"%string :: map key_value fields.
Proof.
  intros Hfields. unfold private_key_v13.
  change (String "010" (key_value_lines fields))
    with (String newline (key_value_lines fields)).
  rewrite lines_first by reflexivity.
  rewrite lines_key_value_lines by assumption. reflexivity.
Qed.

Lemma get_no_newline (s : string) :
  no_newline s = true ->
  forall (n : nat) (c : ascii),
    String.get n s = Some c -> Ascii.eqb c newline = false.
Proof.
  induction s as [| x s IH]; cbn [no_newline String.get]; intros Hs n c Hget.
  - discriminate.
  - apply andb_true_iff in Hs. destruct Hs as [Hx Hs].
    destruct n as [| n].
    + injection Hget as <-. apply negb_true_iff. assumption.
    + exact (IH Hs n c Hget).
Qed.

Lemma enc_no_newline (v : Z) : Ascii.eqb (base64.enc v) newline = false.
Proof.
  unfold base64.enc.
  destruct (String.get (Z.to_nat v) base64.encodeStd) as [c |] eqn:Hget.
  - apply (get_no_newline base64.encodeStd) with (n := Z.to_nat v);
      [reflexivity | assumption].
  - reflexivity.
Qed.

(** base64 text holds no newline. *)
Lemma EncodeToString_no_newline (src : list byte) :
  no_newline (base64.EncodeToString src) = true.
Proof.
  induction src as [| a | a b | a b c rest IH] using list_ind3;
    cbn [base64.EncodeToString no_newline];
    rewrite ?enc_no_newline, ?IH; reflexivity.
Qed.

Lemma string_of_uint_no_newline (d : Decimal.uint) :
  no_newline (NilEmpty.string_of_uint d) = true.
Proof.
  induction d; cbn [NilEmpty.string_of_uint no_newline]; try rewrite IHd; reflexivity.
Qed.

Lemma Itoa_no_newline (n : N) : no_newline (strconv.Itoa n) = true.
Proof.
  unfold strconv.Itoa, NilZero.string_of_uint.
  destruct (N.to_uint n); try reflexivity; apply string_of_uint_no_newline.
Qed.

(** *** Primes and the modular inverse *)

Lemma primeb_sound (p : Z) : primeb p = true -> prime p.
Proof.
  unfold primeb. intros H.
  apply andb_true_iff in H. destruct H as [Hgt Hall].
  apply Z.ltb_lt in Hgt.
  rewrite forallb_forall in Hall.
  apply prime_alt. split; [assumption |].
  intros n Hn Hdiv.
  specialize (Hall (Z.to_nat n)).
  rewrite Z2Nat.id in Hall by lia.
  assert (Hin : In (Z.to_nat n) (seq 2 (Z.to_nat p - 2))) by (apply in_seq; lia).
  specialize (Hall Hin).
  apply negb_true_iff, Z.eqb_neq in Hall.
  apply Hall. apply Z.mod_divide; [lia | assumption].
Qed.

Lemma distinct_primes_coprime (p q : Z) :
  prime p -> prime q -> p <> q -> Z.gcd q p = 1.
Proof.
  intros Hp Hq Hneq.
  apply prime_alt in Hp. apply prime_alt in Hq.
  apply Z.coprime_prime_l; [assumption |].
  intros Hdiv. apply Hneq. symmetry.
  apply Z.divide_prime_prime; assumption.
Qed.

(** [Exp] with exponent -1 and a modulus greater than 1 is the modular
    inverse of a base that is relatively prime to the modulus. *)
Lemma Exp_minus_one (x m : Z) :
  0 <= x -> 1 < m -> Z.gcd x m = 1 ->
  exists c, big.Exp x (big.NewInt (-1)) m = Some c /\
            0 <= c < m /\ (c * x) mod m = 1.
Proof.
  intros Hx Hm Hgcd.
  unfold big.Exp, big.NewInt, big.ModInverse, big.GCD.
  destruct (Z.eqb_spec m 0) as [-> | _]; [lia |].
  change (-1 <? 0) with true. cbv iota.
  rewrite (Z.abs_eq m) by lia.
  destruct (Z.ltb_spec x 0) as [Hneg | _]; [lia |].
  destruct (Z.extgcd x m) as [[u v] d] eqn:Hext.
  apply Z.extgcd_correct in Hext. destruct Hext as [Hbezout Hd].
  rewrite Hgcd in Hd. rewrite Hd in Hbezout |- *.
  change (1 =? 1) with true. cbv iota zeta.
  change (- (-1)) with 1. rewrite Z.pow_1_r, Z.mod_mod by lia.
  cbn [andb].
  exists (u mod m). split; [reflexivity |].
  split; [apply Z.mod_pos_bound; lia |].
  rewrite Z.mul_mod_idemp_l by lia.
  replace (u * x) with (1 + (- v) * m) by lia.
  rewrite Z.mod_add by lia.
  apply Z.mod_small. lia.
Qed.

(** *** The RSA public-key payload *)

Lemma decodeRSA_encodeRSA (e : Z) (n : big.Int) :
  0 <= e < 2 ^ 63 -> 0 <= n -> decodeRSA (encodeRSA e n) = Some (e, n).
Proof.
  intros He Hn.
  unfold encodeRSA, decodeRSA, big.NewInt.
  pose proof (Bytes_length_int e) as Hlen.
  rewrite Z.mod_small by lia.
  rewrite Nat2Z.id.
  rewrite length_app.
  destruct (Nat.ltb_spec (List.length (big.Bytes e) + List.length (big.Bytes n))
              (List.length (big.Bytes e))) as [Hlt | _]; [lia |].
  rewrite firstn_app, Nat.sub_diag, firstn_all, firstn_O, app_nil_r.
  rewrite skipn_app, Nat.sub_diag, skipn_all, skipn_O, app_nil_l.
  rewrite !SetBytes_Bytes, !Z.abs_eq by lia.
  reflexivity.
Qed.

(** *** The cases of a switch *)

Lemma case_of_In (x : N) (labels : list N) : case_of x labels = true <-> In x labels.
Proof.
  unfold case_of. rewrite existsb_exists. split.
  - intros (y & Hin & Heq). apply N.eqb_eq in Heq. subst y. assumption.
  - intros Hin. exists x. split; [assumption | apply N.eqb_refl].
Qed.

(** *** Texts that begin alike *)

Lemma append_inj_l (a x y : string) :
  (a ++ x)%string = (a ++ y)%string -> x = y.
Proof.
  induction a as [| c a IH]; cbn [append]; intros H.
  - assumption.
  - injection H as H. auto.
Qed.

(** Two texts that begin with a line each, and are equal, begin with the
    same line and go on alike. *)
Lemma line_inj (l1 l2 rest1 rest2 : string) :
  no_newline l1 = true -> no_newline l2 = true ->
  (l1 ++ String newline rest1)%string = (l2 ++ String newline rest2)%string ->
  l1 = l2 /\ rest1 = rest2.
Proof.
  revert l2.
  induction l1 as [| c1 l1 IH]; intros [| c2 l2]; cbn [append no_newline];
    intros H1 H2 Heq.
  - injection Heq as Heq. auto.
  - injection Heq as Hc _. subst c2.
    rewrite Ascii.eqb_refl in H2. discriminate.
  - injection Heq as Hc _. subst c1.
    rewrite Ascii.eqb_refl in H1. discriminate.
  - injection Heq as Hc Heq. subst c2.
    apply andb_true_iff in H1. destruct H1 as [_ H1].
    apply andb_true_iff in H2. destruct H2 as [_ H2].
    destruct (IH l2 H1 H2 Heq) as [-> ->]. auto.
Qed.

(** The lines of two lists of fields with the same keys, and values
    without newline, are equal only when the values are. *)
Lemma key_value_lines_inj (keys : list string) :
  forall values1 values2 : list string,
    List.length values1 = List.length keys ->
    List.length values2 = List.length keys ->
    Forall (fun v => no_newline v = true) values1 ->
    Forall (fun v => no_newline v = true) values2 ->
    key_value_lines (combine keys values1) = key_value_lines (combine keys values2) ->
    values1 = values2.
Proof.
  induction keys as [| key keys IH]; intros [| v1 values1] [| v2 values2];
    cbn [List.length combine key_value_lines]; intros L1 L2 F1 F2 Heq;
    try discriminate; try reflexivity.
  inversion_clear F1 as [| ? ? Hv1 F1']. inversion_clear F2 as [| ? ? Hv2 F2'].
  apply append_inj_l in Heq. apply append_inj_l in Heq.
  change (String "010" (key_value_lines (combine keys values1)))
    with (String newline (key_value_lines (combine keys values1))) in Heq.
  change (String "010" (key_value_lines (combine keys values2)))
    with (String newline (key_value_lines (combine keys values2))) in Heq.
  destruct (line_inj _ _ _ _ Hv1 Hv2 Heq) as [-> Hrest].
  f_equal. apply IH; auto.
Qed.

Lemma Returns_inj {A : Type} (a b : A) : Returns a = Returns b -> a = b.
Proof. intros H. injection H as H. exact H. Qed.

(** Two v1.3 texts with the same first field and the same keys after it. *)
Lemma private_key_v13_inj (key0 value0 : string) (keys values1 values2 : list string) :
  List.length values1 = List.length keys ->
  List.length values2 = List.length keys ->
  Forall (fun v => no_newline v = true) values1 ->
  Forall (fun v => no_newline v = true) values2 ->
  private_key_v13 ((key0, value0) :: combine keys values1) =
  private_key_v13 ((key0, value0) :: combine keys values2) ->
  values1 = values2.
Proof.
  intros L1 L2 F1 F2 Heq.
  unfold private_key_v13 in Heq. cbn [key_value_lines] in Heq.
  apply (append_inj_l "Private-key-format: v1.3") in Heq.
  injection Heq as Heq.
  apply (append_inj_l key0) in Heq.
  apply (append_inj_l ": ") in Heq.
  apply (append_inj_l value0) in Heq.
  injection Heq as Heq.
  exact (key_value_lines_inj keys values1 values2 L1 L2 F1 F2 Heq).
Qed.

(** An exported integer determines the integer up to its sign. *)
Lemma export_int_inj (x y : big.Int) : export_int x = export_int y -> Z.abs x = Z.abs y.
Proof.
  intros Heq.
  pose proof (packBase64Int_unpackBase64 x) as Hx.
  pose proof (packBase64Int_unpackBase64 y) as Hy.
  unfold export_int in Heq. rewrite Heq in Hx. congruence.
Qed.

Lemma export_int_no_newline (x : big.Int) : no_newline (export_int x) = true.
Proof. apply EncodeToString_no_newline. Qed.

(** *** [Exp] with exponent -1, in general *)

Lemma ModInverse_gcd (g n : big.Int) :
  n <> 0 ->
  (Z.gcd g n = 1 -> exists x, big.ModInverse g n = Some x) /\
  (Z.gcd g n <> 1 -> big.ModInverse g n = None).
Proof.
  intros Hn. unfold big.ModInverse, big.GCD.
  assert (Hgcd : Z.gcd (if g <? 0 then g mod Z.abs n else g) (Z.abs n) = Z.gcd g n).
  { destruct (g <? 0).
    - rewrite Z.gcd_mod by lia. rewrite Z.gcd_comm. apply Z.gcd_abs_r.
    - apply Z.gcd_abs_r. }
  destruct (Z.extgcd (if g <? 0 then g mod Z.abs n else g) (Z.abs n))
    as [[x y] d] eqn:Hext.
  apply Z.extgcd_correct in Hext. destruct Hext as [_ Hd].
  rewrite Hgcd in Hd. subst d.
  split; intros H.
  - rewrite H. cbn. eauto.
  - destruct (Z.eqb_spec (Z.gcd g n) 1); [contradiction | reflexivity].
Qed.

(** [Exp] with exponent -1 hands back nil exactly when the modulus is not
    zero and the base has a common factor with it. *)
Lemma Exp_minus_one_nil (x m : big.Int) :
  big.Exp x (big.NewInt (-1)) m = None <-> m <> 0 /\ Z.gcd x m <> 1.
Proof.
  unfold big.Exp, big.NewInt.
  destruct (Z.eqb_spec m 0) as [-> | Hm].
  - split; [discriminate | intros [H _]; contradiction].
  - change (-1 <? 0) with true. cbv iota.
    destruct (ModInverse_gcd x m Hm) as [Hsome Hnone].
    destruct (Z.eq_dec (Z.gcd x m) 1) as [Hg | Hg].
    + destruct (Hsome Hg) as [inv ->]. split; [discriminate | intros [_ H]; contradiction].
    + rewrite (Hnone Hg). split; auto.
Qed.

(** ** Properties of keygen.go *)

Section keygen.

Context {RestT Rand : Type}.

(** An expression switch does not compile with a constant repeated in its
    cases, so the seven constants of the first switch of [Generate] are
    pairwise different. *)
Variables RSAMD5 RSASHA1 RSASHA256 RSASHA1NSEC3SHA1 RSASHA512 : N.
Variables ECDSAP256SHA256Y ECDSAP384SHA384Y : N.

Hypothesis algorithms_distinct :
  NoDup [RSAMD5; RSASHA1; RSASHA256; RSASHA1NSEC3SHA1; RSASHA512;
         ECDSAP256SHA256Y; ECDSAP384SHA384Y].

Variable Alg_str : N -> string.
Variable rsa_GenerateKey : Rand -> Z -> Rand * (string + rsa.PrivateKey).
Variable ecdsa_GenerateKey :
  elliptic.Curve -> Rand -> Rand * (string + ecdsa.PrivateKey).

(** Inside this section the methods are read at the constants and the
    library generators above. *)
Local Abbreviation size_switch :=
  (size_switch RSAMD5 RSASHA1 RSASHA256 RSASHA1NSEC3SHA1 RSASHA512
     ECDSAP256SHA256Y ECDSAP384SHA384Y).
Local Abbreviation curve_switch :=
  (curve_switch ECDSAP256SHA256Y ECDSAP384SHA384Y).
Local Abbreviation rsa_case := (rsa_case rsa_GenerateKey).
Local Abbreviation ecdsa_case := (ecdsa_case ecdsa_GenerateKey).
Local Abbreviation generate_switch :=
  (generate_switch RSAMD5 RSASHA1 RSASHA256 RSASHA1NSEC3SHA1 RSASHA512
     ECDSAP256SHA256Y ECDSAP384SHA384Y rsa_GenerateKey ecdsa_GenerateKey).
Local Abbreviation Generate :=
  (Generate RSAMD5 RSASHA1 RSASHA256 RSASHA1NSEC3SHA1 RSASHA512
     ECDSAP256SHA256Y ECDSAP384SHA384Y rsa_GenerateKey ecdsa_GenerateKey).
Local Abbreviation PrivateKeyString := (PrivateKeyString Alg_str).
Local Abbreviation rsa_family :=
  (rsa_family RSAMD5 RSASHA1 RSASHA256 RSASHA1NSEC3SHA1 RSASHA512).
Local Abbreviation rsa_min_bits := (rsa_min_bits RSASHA512).
Local Abbreviation rsa_bits_allowed := (rsa_bits_allowed RSASHA512).
Local Abbreviation recognized :=
  (recognized RSAMD5 RSASHA1 RSASHA256 RSASHA1NSEC3SHA1 RSASHA512
     ECDSAP256SHA256Y ECDSAP384SHA384Y).

Set Default Proof Using "Type".

Local Open Scope string_scope.

(** *** PrivateKeyString *)

Lemma prime_minus_one (p : Z) : prime p -> 0 < p - 1.
Proof. intros [Hgt _]. lia. Qed.

(** The export of a key with two different prime factors: the call
    returns, and the text is the v1.3 layout of these nine fields. *)
Lemma PrivateKeyString_rsa (r : RR_DNSKEY RestT) (t : rsa.PrivateKey) (p q : Z) :
  rsa_primes t p q ->
  exists coeff : big.Int,
    big.Exp q (big.NewInt (-1)) p = Some coeff /\
    0 <= coeff < p /\
    (coeff * q) mod p = 1 /\
    PrivateKeyString r (RSAPrivateKey t) =
    Returns (private_key_v13
      [ ("Algorithm",
          strconv.Itoa (Algorithm r) ++ " (" ++ Alg_str (Algorithm r) ++ ")");
        ("Modules", export_int (rsa.N (rsa.Public t)));
        ("PublicExponent", export_int (rsa.E (rsa.Public t)));
        ("PrivateExponent", export_int (rsa.D t));
        ("Prime1", export_int p);
        ("Prime2", export_int q);
        ("Exponent1", export_int (rsa.D t mod (p - 1)));
        ("Exponent2", export_int (rsa.D t mod (q - 1)));
        ("Coefficient", export_int coeff) ]).
Proof.
  intros (Hp0 & Hq0 & Hp & Hq & Hneq).
  pose proof (prime_minus_one p Hp) as Hp1.
  pose proof (prime_minus_one q Hq) as Hq1.
  destruct (Exp_minus_one q p) as (coeff & Hexp & Hrange & Hinv);
    [lia | lia | apply distinct_primes_coprime; assumption |].
  exists coeff. repeat (split; [assumption || lia |]).
  unfold PrivateKeyString, index.
  rewrite Hp0, Hq0. cbn [bind].
  unfold big.Mod, big.Sub. change (big.NewInt 1) with 1.
  destruct (Z.eqb_spec (p - 1) 0) as [Hz | _]; [lia |].
  destruct (Z.eqb_spec (q - 1) 0) as [Hz | _]; [lia |].
  cbn [bind]. rewrite Hexp. cbn [deref bind].
  rewrite !Z.abs_eq by lia.
  reflexivity.
Qed.

(** C1: for a generated RSA key with private exponent d and primes
    p = prime1, q = prime2, the values that PrivateKeyString exports as
    Exponent1, Exponent2 and Coefficient are d mod (p - 1), d mod (q - 1)
    and the inverse of q modulo p (coefficient * q = 1 modulo p); the
    three integers can be read back from the exported text. *)
Theorem C1_crt_parameters (r : RR_DNSKEY RestT) (t : rsa.PrivateKey) (p q : Z) :
  rsa_primes t p q ->
  exists (fields : list (string * string)) (exponent1 exponent2 coefficient : big.Int),
    PrivateKeyString r (RSAPrivateKey t) =
    Returns (private_key_v13
               (fields ++ [ ("Exponent1", export_int exponent1);
                            ("Exponent2", export_int exponent2);
                            ("Coefficient", export_int coefficient) ])%list) /\
    exponent1 = rsa.D t mod (p - 1) /\
    exponent2 = rsa.D t mod (q - 1) /\
    0 <= coefficient < p /\
    (coefficient * q) mod p = 1 /\
    packBase64Int (export_int exponent1) = Some exponent1 /\
    packBase64Int (export_int exponent2) = Some exponent2 /\
    packBase64Int (export_int coefficient) = Some coefficient.
Proof.
  intros Hkey.
  destruct (PrivateKeyString_rsa r t p q Hkey)
    as (coeff & _ & Hrange & Hinv & Htext).
  destruct Hkey as (_ & _ & Hp & Hq & _).
  pose proof (prime_minus_one p Hp) as Hp1.
  pose proof (prime_minus_one q Hq) as Hq1.
  rewrite Htext.
  exists [ ("Algorithm",
             strconv.Itoa (Algorithm r) ++ " (" ++ Alg_str (Algorithm r) ++ ")");
           ("Modules", export_int (rsa.N (rsa.Public t)));
           ("PublicExponent", export_int (rsa.E (rsa.Public t)));
           ("PrivateExponent", export_int (rsa.D t));
           ("Prime1", export_int p);
           ("Prime2", export_int q) ],
         (rsa.D t mod (p - 1)), (rsa.D t mod (q - 1)), coeff.
  split; [reflexivity |].
  split; [reflexivity |]. split; [reflexivity |].
  split; [assumption |]. split; [assumption |].
  unfold export_int. rewrite !packBase64Int_unpackBase64.
  pose proof (Z.mod_pos_bound (rsa.D t) (p - 1) Hp1).
  pose proof (Z.mod_pos_bound (rsa.D t) (q - 1) Hq1).
  rewrite !Z.abs_eq by lia.
  repeat split; reflexivity.
Qed.

(** base64 values and the algorithm label make lines of their own when
    the mnemonic of the algorithm holds no newline. *)
Lemma rsa_fields_no_newline (alg : N) (ints : list (string * big.Int)) :
  no_newline (Alg_str alg) = true ->
  Forall (fun field => no_newline (fst field) = true) ints ->
  Forall (fun field => no_newline (key_value field) = true)
    (("Algorithm", strconv.Itoa alg ++ " (" ++ Alg_str alg ++ ")")
       :: map (fun field => (fst field, export_int (snd field))) ints).
Proof.
  intros Halg Hints. constructor.
  - unfold key_value. cbn [fst snd].
    rewrite !no_newline_append, Itoa_no_newline, Halg. reflexivity.
  - induction Hints as [| [key x] ints Hkey _ IH]; cbn [map]; constructor.
    + unfold key_value, export_int, unpackBase64. cbn [fst snd] in Hkey |- *.
      rewrite !no_newline_append, Hkey, EncodeToString_no_newline. reflexivity.
    + exact IH.
Qed.

(** C2: for an RSA private key (two different prime factors), the text that
    PrivateKeyString returns is the line "Private-key-format: v1.3"
    followed by exactly nine "Key: Value" lines, in the order Algorithm,
    Modules, PublicExponent, PrivateExponent, Prime1, Prime2, Exponent1,
    Exponent2, Coefficient (splitting the text at its newlines gives these
    ten lines, the mnemonic of the algorithm holding no newline); every
    integer value is standard base64 (it decodes back to its bytes) of the
    big-endian (the bytes read as a big-endian number give the integer),
    minimal-length (no leading zero byte) representation. *)
Theorem C2_private_key_format (r : RR_DNSKEY RestT) (t : rsa.PrivateKey) (p q : Z) :
  rsa_primes t p q ->
  (exists coeff : big.Int,
     big.Exp q (big.NewInt (-1)) p = Some coeff /\
     let fields :=
       [ ("Algorithm",
           strconv.Itoa (Algorithm r) ++ " (" ++ Alg_str (Algorithm r) ++ ")");
         ("Modules", export_int (rsa.N (rsa.Public t)));
         ("PublicExponent", export_int (rsa.E (rsa.Public t)));
         ("PrivateExponent", export_int (rsa.D t));
         ("Prime1", export_int p);
         ("Prime2", export_int q);
         ("Exponent1", export_int (rsa.D t mod (p - 1)));
         ("Exponent2", export_int (rsa.D t mod (q - 1)));
         ("Coefficient", export_int coeff) ] in
     PrivateKeyString r (RSAPrivateKey t) = Returns (private_key_v13 fields) /\
     (no_newline (Alg_str (Algorithm r)) = true ->
      lines (private_key_v13 fields) =
      "Private-key-format: v1.3" :: map key_value fields)) /\
  (forall x : big.Int,
     export_int x = base64.EncodeToString (big.Bytes x) /\
     base64.DecodeString (export_int x) = Some (big.Bytes x) /\
     big.SetBytes (big.Bytes x) = Z.abs x /\
     hd 1 (big.Bytes x) <> 0).
Proof.
  intros Hkey. split.
  - destruct (PrivateKeyString_rsa r t p q Hkey) as (coeff & Hexp & _ & _ & Htext).
    exists coeff. split; [assumption |].
    cbv zeta. split; [assumption |].
    intros Halg. apply lines_private_key_v13.
    apply (rsa_fields_no_newline (Algorithm r)
             [ ("Modules", rsa.N (rsa.Public t));
               ("PublicExponent", rsa.E (rsa.Public t));
               ("PrivateExponent", rsa.D t);
               ("Prime1", p); ("Prime2", q);
               ("Exponent1", rsa.D t mod (p - 1));
               ("Exponent2", rsa.D t mod (q - 1));
               ("Coefficient", coeff) ]).
    + assumption.
    + repeat constructor.
  - intros x. split; [reflexivity |].
    split; [apply DecodeString_EncodeToString, Bytes_is_byte |].
    split; [apply SetBytes_Bytes | apply Bytes_minimal].
Qed.

(** C6, as the code has it: PrivateKeyString returns a text that is not
    empty for an RSA key with two different prime factors, the placeholder
    "TODO" for an ECDSA key, and the empty string, without failing, for a
    private key that is neither. *)
Theorem C6_export_results (r : RR_DNSKEY RestT) (key : PrivateKey) :
  match key with
  | RSAPrivateKey t =>
      forall p q, rsa_primes t p q ->
        exists s, PrivateKeyString r key = Returns s /\ s <> EmptyString
  | ECDSAPrivateKey _ => PrivateKeyString r key = Returns "TODO"
  | nilKey | OtherValue _ => PrivateKeyString r key = Returns EmptyString
  end.
Proof.
  destruct key as [| t | t | ty]; try reflexivity.
  intros p q Hkey.
  destruct (PrivateKeyString_rsa r t p q Hkey) as (coeff & _ & _ & _ & Htext).
  eexists. split; [exact Htext |]. discriminate.
Qed.

(** *** Generate *)

Local Open Scope Z_scope.

(** Splits [~ (A \/ B \/ ...)] into the negations of its parts. *)
Ltac split_not_or :=
  repeat match goal with
         | H : ~ (_ \/ _) |- _ =>
             let H1 := fresh "Hneq" in
             apply Decidable.not_or in H; destruct H as [H1 H]
         | H : ~ False |- _ => clear H
         end.

(** The inequalities between the seven algorithm constants. *)
Ltac distinct_algorithms :=
  let Hd := fresh "Hd" in
  pose proof algorithms_distinct as Hd;
  repeat (let Hn := fresh "Hn" in
          apply NoDup_cons_iff in Hd; destruct Hd as [Hn Hd]; cbn [In] in Hn);
  clear Hd; split_not_or.

(** Decides the comparisons of a switch from the equalities and
    inequalities at hand. *)
Ltac switch_cases :=
  unfold case_of; cbn [existsb];
  repeat match goal with
         | |- context [(?a =? ?a)%N] => rewrite (N.eqb_refl a)
         | H : ?a <> ?b |- context [(?a =? ?b)%N] =>
             rewrite (proj2 (N.eqb_neq a b) H)
         | H : ?b <> ?a |- context [(?a =? ?b)%N] =>
             rewrite (proj2 (N.eqb_neq a b) (not_eq_sym H))
         end;
  cbn [orb].

Lemma rsa_family_generate_switch (r : RR_DNSKEY RestT) (bits : Z) (rnd : Rand) :
  rsa_family (Algorithm r) ->
  generate_switch r bits rnd = Some (rsa_case r bits rnd).
Proof.
  unfold rsa_family, generate_switch. intros Hfam.
  assert (Hcase : case_of (Algorithm r)
                    [RSAMD5; RSASHA1; RSASHA256; RSASHA512; RSASHA1NSEC3SHA1] = true).
  { apply case_of_In. cbn [In] in Hfam |- *.
    destruct Hfam as [H | [H | [H | [H | [H | []]]]]]; auto 6. }
  rewrite Hcase. reflexivity.
Qed.

Lemma rsa_family_size_switch (r : RR_DNSKEY RestT) (bits : Z) :
  rsa_family (Algorithm r) ->
  size_switch r bits =
  if (bits <? rsa_min_bits (Algorithm r)) || (bits >? 4096)
  then Some ErrKeySize else None.
Proof using algorithms_distinct.
  unfold rsa_family, size_switch, rsa_min_bits. cbn [In]. intros Hfam.
  distinct_algorithms.
  repeat destruct Hfam as [Hfam | Hfam]; try contradiction;
    rewrite <- Hfam; switch_cases; reflexivity.
Qed.

Lemma rsa_case_not_ErrKeySize (r : RR_DNSKEY RestT) (bits : Z) (rnd : Rand) :
  err_of (rsa_case r bits rnd) <> Some ErrKeySize.
Proof.
  unfold rsa_case. destruct (rsa_GenerateKey rnd bits) as [rnd' [err | priv]];
    cbn; discriminate.
Qed.

Lemma rsa_not_allowed_Generate (r : RR_DNSKEY RestT) (bits : Z) (rnd : Rand) :
  rsa_family (Algorithm r) ->
  ~ rsa_bits_allowed (Algorithm r) bits ->
  Generate r bits rnd = (nilKey, Some ErrKeySize, r, rnd).
Proof using algorithms_distinct.
  unfold rsa_bits_allowed, Generate. intros Hfam Hbits.
  rewrite rsa_family_size_switch by assumption.
  destruct (Z.ltb_spec bits (rsa_min_bits (Algorithm r)));
    destruct (Z.gtb_spec bits 4096); cbn [orb]; reflexivity || lia.
Qed.

Lemma rsa_allowed_Generate (r : RR_DNSKEY RestT) (bits : Z) (rnd : Rand) :
  rsa_family (Algorithm r) ->
  rsa_bits_allowed (Algorithm r) bits ->
  Generate r bits rnd = rsa_case r bits rnd.
Proof using algorithms_distinct.
  unfold rsa_bits_allowed, Generate. intros Hfam Hbits.
  rewrite rsa_family_size_switch by assumption.
  destruct (Z.ltb_spec bits (rsa_min_bits (Algorithm r))); [lia |].
  destruct (Z.gtb_spec bits 4096); [lia |]. cbn [orb].
  rewrite rsa_family_generate_switch by assumption. reflexivity.
Qed.

(** C3: for an algorithm of the RSA family, Generate fails with ErrKeySize
    exactly when bits is outside the allowed range (below 512, below 1024
    for RSA-SHA512, or above 4096); it then returns before the generator is
    called, with the record and the random source as they were; for a
    size inside the range, bounds included, the call is the RSA generation. *)
Theorem C3_rsa_key_size (r : RR_DNSKEY RestT) (bits : Z) (rnd : Rand) :
  rsa_family (Algorithm r) ->
  (err_of (Generate r bits rnd) = Some ErrKeySize <->
   bits < (if (Algorithm r =? RSASHA512)%N then 1024 else 512) \/ 4096 < bits) /\
  (~ rsa_bits_allowed (Algorithm r) bits ->
   Generate r bits rnd = (nilKey, Some ErrKeySize, r, rnd)) /\
  (rsa_bits_allowed (Algorithm r) bits ->
   Generate r bits rnd = rsa_case r bits rnd).
Proof using algorithms_distinct.
  intros Hfam.
  split; [| split].
  - fold (rsa_min_bits (Algorithm r)).
    destruct (Z.le_gt_cases (rsa_min_bits (Algorithm r)) bits) as [Hlo | Hlo].
    + destruct (Z.le_gt_cases bits 4096) as [Hhi | Hhi].
      * rewrite rsa_allowed_Generate by (assumption || (split; assumption)).
        split; [| lia].
        intros Herr. exfalso. exact (rsa_case_not_ErrKeySize r bits rnd Herr).
      * rewrite rsa_not_allowed_Generate
          by (assumption || (unfold rsa_bits_allowed; lia)).
        split; [lia | reflexivity].
    + rewrite rsa_not_allowed_Generate
        by (assumption || (unfold rsa_bits_allowed; lia)).
      split; [lia | reflexivity].
  - apply rsa_not_allowed_Generate. assumption.
  - apply rsa_allowed_Generate. assumption.
Qed.

Lemma ecdsa_P256_wrong_size (r : RR_DNSKEY RestT) (bits : Z) (rnd : Rand) :
  Algorithm r = ECDSAP256SHA256Y -> bits <> 256 ->
  Generate r bits rnd = (nilKey, Some ErrKeySize, r, rnd).
Proof using algorithms_distinct.
  intros Halg Hbits. distinct_algorithms.
  unfold Generate, size_switch. rewrite Halg.
  switch_cases. destruct (Z.eqb_spec bits 256); [contradiction | reflexivity].
Qed.

Lemma ecdsa_P384_wrong_size (r : RR_DNSKEY RestT) (bits : Z) (rnd : Rand) :
  Algorithm r = ECDSAP384SHA384Y -> bits <> 384 ->
  Generate r bits rnd = (nilKey, Some ErrKeySize, r, rnd).
Proof using algorithms_distinct.
  intros Halg Hbits. distinct_algorithms.
  unfold Generate, size_switch. rewrite Halg.
  switch_cases. destruct (Z.eqb_spec bits 384); [contradiction | reflexivity].
Qed.

Lemma ecdsa_P256_Generate (r : RR_DNSKEY RestT) (rnd : Rand) :
  Algorithm r = ECDSAP256SHA256Y ->
  Generate r 256 rnd = ecdsa_case r elliptic.P256 rnd.
Proof using algorithms_distinct.
  intros Halg. distinct_algorithms.
  unfold Generate, size_switch, generate_switch, curve_switch.
  rewrite Halg. switch_cases. reflexivity.
Qed.

Lemma ecdsa_P384_Generate (r : RR_DNSKEY RestT) (rnd : Rand) :
  Algorithm r = ECDSAP384SHA384Y ->
  Generate r 384 rnd = ecdsa_case r elliptic.P384 rnd.
Proof using algorithms_distinct.
  intros Halg. distinct_algorithms.
  unfold Generate, size_switch, generate_switch, curve_switch.
  rewrite Halg. switch_cases. reflexivity.
Qed.

(** C4: for ECDSA-P256-SHA256 every size other than 256 fails with
    ErrKeySize and for ECDSA-P384-SHA384 every size other than 384, before
    the generator is called; with the exact size Generate calls
    ecdsa.GenerateKey on the curve of the algorithm, P-256 or P-384, and
    hands back its error, or its key with the coordinates written to the
    record. *)
Theorem C4_ecdsa_key_size (r : RR_DNSKEY RestT) (bits : Z) (rnd : Rand) :
  (Algorithm r = ECDSAP256SHA256Y ->
   (bits <> 256 -> Generate r bits rnd = (nilKey, Some ErrKeySize, r, rnd)) /\
   (bits = 256 ->
    Generate r bits rnd =
    match ecdsa_GenerateKey elliptic.P256 rnd with
    | (rnd', inl err) => (nilKey, Some (LibraryError err), r, rnd')
    | (rnd', inr priv) =>
        (ECDSAPrivateKey priv, None,
         setPublicKeyCurve r (ecdsa.X (ecdsa.Public priv)) (ecdsa.Y (ecdsa.Public priv)),
         rnd')
    end) /\
   (err_of (Generate r bits rnd) = None -> bits = 256)) /\
  (Algorithm r = ECDSAP384SHA384Y ->
   (bits <> 384 -> Generate r bits rnd = (nilKey, Some ErrKeySize, r, rnd)) /\
   (bits = 384 ->
    Generate r bits rnd =
    match ecdsa_GenerateKey elliptic.P384 rnd with
    | (rnd', inl err) => (nilKey, Some (LibraryError err), r, rnd')
    | (rnd', inr priv) =>
        (ECDSAPrivateKey priv, None,
         setPublicKeyCurve r (ecdsa.X (ecdsa.Public priv)) (ecdsa.Y (ecdsa.Public priv)),
         rnd')
    end) /\
   (err_of (Generate r bits rnd) = None -> bits = 384)).
Proof using algorithms_distinct.
  split; intros Halg.
  - split; [apply ecdsa_P256_wrong_size; assumption |]. split.
    + intros ->. rewrite ecdsa_P256_Generate by assumption. reflexivity.
    + intros Herr. destruct (Z.eq_dec bits 256) as [| Hneq]; [assumption |].
      rewrite ecdsa_P256_wrong_size in Herr by assumption. discriminate.
  - split; [apply ecdsa_P384_wrong_size; assumption |]. split.
    + intros ->. rewrite ecdsa_P384_Generate by assumption. reflexivity.
    + intros Herr. destruct (Z.eq_dec bits 384) as [| Hneq]; [assumption |].
      rewrite ecdsa_P384_wrong_size in Herr by assumption. discriminate.
Qed.

(** C5: when the Algorithm of the record is none of the seven recognized
    ones, Generate fails with ErrAlg whatever bits is; the first switch
    checks no size, and neither the record nor the random source is
    touched. *)
Theorem C5_unsupported_algorithm (r : RR_DNSKEY RestT) (bits : Z) (rnd : Rand) :
  ~ recognized (Algorithm r) ->
  size_switch r bits = None /\
  Generate r bits rnd = (nilKey, Some ErrAlg, r, rnd).
Proof.
  unfold recognized. cbn [In]. intros Halg. split_not_or.
  assert (Hsize : size_switch r bits = None).
  { unfold size_switch. switch_cases. reflexivity. }
  split; [assumption |].
  unfold Generate. rewrite Hsize.
  unfold generate_switch. switch_cases. reflexivity.
Qed.

(** C7, as the code has it: when the library generator fails, Generate
    returns the error of the library itself, unchanged, with a nil key, and
    leaves the record (its public-key field too) as it was. *)
Theorem C7_generation_failure (r : RR_DNSKEY RestT) (bits : Z)
    (rnd rnd' : Rand) (msg : string) :
  (rsa_family (Algorithm r) ->
   rsa_bits_allowed (Algorithm r) bits ->
   rsa_GenerateKey rnd bits = (rnd', inl msg) ->
   Generate r bits rnd = (nilKey, Some (LibraryError msg), r, rnd')) /\
  (Algorithm r = ECDSAP256SHA256Y ->
   ecdsa_GenerateKey elliptic.P256 rnd = (rnd', inl msg) ->
   Generate r 256 rnd = (nilKey, Some (LibraryError msg), r, rnd')) /\
  (Algorithm r = ECDSAP384SHA384Y ->
   ecdsa_GenerateKey elliptic.P384 rnd = (rnd', inl msg) ->
   Generate r 384 rnd = (nilKey, Some (LibraryError msg), r, rnd')).
Proof using algorithms_distinct.
  split; [| split].
  - intros Hfam Hbits Hgen.
    rewrite rsa_allowed_Generate by assumption.
    unfold rsa_case. rewrite Hgen. reflexivity.
  - intros Halg Hgen.
    rewrite ecdsa_P256_Generate by assumption.
    unfold ecdsa_case. rewrite Hgen. reflexivity.
  - intros Halg Hgen.
    rewrite ecdsa_P384_Generate by assumption.
    unfold ecdsa_case. rewrite Hgen. reflexivity.
Qed.

(** The record after the body of a case: as before, or with a new
    public-key payload only. *)
Lemma rsa_case_frame (r : RR_DNSKEY RestT) (bits : Z) (rnd : Rand) :
  (err_of (rsa_case r bits rnd) <> None -> record_of (rsa_case r bits rnd) = r) /\
  Algorithm (record_of (rsa_case r bits rnd)) = Algorithm r /\
  Rest (record_of (rsa_case r bits rnd)) = Rest r.
Proof.
  unfold rsa_case.
  destruct (rsa_GenerateKey rnd bits) as [rnd' [err | priv]]; cbn;
    repeat split; congruence.
Qed.

Lemma ecdsa_case_frame (r : RR_DNSKEY RestT) (c : elliptic.Curve) (rnd : Rand) :
  (err_of (ecdsa_case r c rnd) <> None -> record_of (ecdsa_case r c rnd) = r) /\
  Algorithm (record_of (ecdsa_case r c rnd)) = Algorithm r /\
  Rest (record_of (ecdsa_case r c rnd)) = Rest r.
Proof.
  unfold ecdsa_case.
  destruct (ecdsa_GenerateKey c rnd) as [rnd' [err | priv]]; cbn;
    repeat split; congruence.
Qed.

(** C8: a call of Generate that fails leaves the record as it was; a call
    that succeeds changes nothing of the record but its public-key field;
    the Algorithm of the record is never changed. *)
Theorem C8_record_frame (r : RR_DNSKEY RestT) (bits : Z) (rnd : Rand) :
  (err_of (Generate r bits rnd) <> None -> record_of (Generate r bits rnd) = r) /\
  Algorithm (record_of (Generate r bits rnd)) = Algorithm r /\
  Rest (record_of (Generate r bits rnd)) = Rest r.
Proof.
  unfold Generate.
  destruct (size_switch r bits) as [e |]; [cbn; auto |].
  unfold generate_switch.
  destruct (case_of (Algorithm r) _); [apply rsa_case_frame |].
  destruct (case_of (Algorithm r) _); [apply ecdsa_case_frame |].
  cbn. auto.
Qed.

(** C9: after a successful call of Generate with an algorithm of the RSA
    family, the key returned is an RSA key, the public-key payload of the
    record is the RSA encoding of its public exponent and modulus, and
    decoding the payload gives this pair back. *)
Theorem C9_rsa_public_key_round_trip (r : RR_DNSKEY RestT) (bits : Z) (rnd : Rand) :
  rsa_family (Algorithm r) ->
  err_of (Generate r bits rnd) = None ->
  exists priv : rsa.PrivateKey,
    key_of (Generate r bits rnd) = RSAPrivateKey priv /\
    PublicKey (record_of (Generate r bits rnd)) =
    encodeRSA (rsa.E (rsa.Public priv)) (rsa.N (rsa.Public priv)) /\
    (0 <= rsa.E (rsa.Public priv) < 2 ^ 63 ->
     0 <= rsa.N (rsa.Public priv) ->
     decodeRSA (PublicKey (record_of (Generate r bits rnd))) =
     Some (rsa.E (rsa.Public priv), rsa.N (rsa.Public priv))).
Proof.
  intros Hfam Herr.
  unfold Generate in Herr |- *.
  destruct (size_switch r bits) as [e |]; [discriminate |].
  rewrite rsa_family_generate_switch in Herr |- * by assumption.
  unfold rsa_case in Herr |- *.
  destruct (rsa_GenerateKey rnd bits) as [rnd' [err | priv]]; [discriminate |].
  exists priv. cbn. split; [reflexivity |]. split; [reflexivity |].
  apply decodeRSA_encodeRSA.
Qed.

(** C10: every call of Generate returns a key that is not nil together
    with a nil error, or a nil key together with an error that is not nil;
    the second switch always returns from one of its cases, so the dummy
    return after it is never reached. *)
Theorem C10_generate_outcomes (r : RR_DNSKEY RestT) (bits : Z) (rnd : Rand) :
  generate_switch r bits rnd <> None /\
  ((key_of (Generate r bits rnd) <> nilKey /\ err_of (Generate r bits rnd) = None) \/
   (key_of (Generate r bits rnd) = nilKey /\ err_of (Generate r bits rnd) <> None)).
Proof.
  split.
  - unfold generate_switch.
    destruct (case_of (Algorithm r) _); [discriminate |].
    destruct (case_of (Algorithm r) _); discriminate.
  - unfold Generate.
    destruct (size_switch r bits) as [e |]; [right; cbn; split; congruence |].
    unfold generate_switch.
    destruct (case_of (Algorithm r) _).
    + unfold rsa_case.
      destruct (rsa_GenerateKey rnd bits) as [rnd' [err | priv]]; cbn;
        [right | left]; split; congruence.
    + destruct (case_of (Algorithm r) _).
      * unfold ecdsa_case.
        destruct (ecdsa_GenerateKey (curve_switch r) rnd) as [rnd' [err | priv]];
          cbn; [right | left]; split; congruence.
      * right. cbn. split; congruence.
Qed.


(** *** More on PrivateKeyString *)

Local Open Scope string_scope.

(** X1: what PrivateKeyString does with an RSA key whose modulus, private
    exponent and listed prime factors are set (no nil pointer), whatever
    integers they are: without a second prime factor the call panics on
    the index; with a factor 1 it panics on the division; with two factors
    that are not relatively prime (the first not zero) it panics on the
    nil coefficient; in every other case it returns a text that is not
    empty. *)
Theorem PrivateKeyString_rsa_outcomes (r : RR_DNSKEY RestT) (t : rsa.PrivateKey) :
  (nth_error (rsa.Primes t) 1 = None ->
   PrivateKeyString r (RSAPrivateKey t) = Panics IndexOutOfRange) /\
  (forall p q : Z,
     nth_error (rsa.Primes t) 0 = Some p ->
     nth_error (rsa.Primes t) 1 = Some q ->
     (p = 1 \/ q = 1 ->
      PrivateKeyString r (RSAPrivateKey t) = Panics DivisionByZero) /\
     (p <> 1 -> q <> 1 -> p <> 0 -> Z.gcd q p <> 1 ->
      PrivateKeyString r (RSAPrivateKey t) = Panics NilDereference) /\
     (p <> 1 -> q <> 1 -> p = 0 \/ Z.gcd q p = 1 ->
      exists s, PrivateKeyString r (RSAPrivateKey t) = Returns s /\
                s <> EmptyString)).
Proof.
  split.
  - intros Hnone. unfold PrivateKeyString, index.
    destruct (rsa.Primes t) as [| a [| b l]]; cbn in Hnone |- *;
      reflexivity || discriminate.
  - intros p q Hp Hq.
    unfold PrivateKeyString, index. rewrite Hp, Hq. cbn [bind].
    unfold big.Mod, big.Sub. change (big.NewInt 1) with 1.
    split; [| split].
    + intros [-> | ->].
      * reflexivity.
      * destruct (Z.eqb (p - 1) 0); reflexivity.
    + intros Hp1 Hq1 Hp0 Hgcd.
      destruct (Z.eqb_spec (p - 1) 0) as [Hz | _]; [lia |].
      destruct (Z.eqb_spec (q - 1) 0) as [Hz | _]; [lia |].
      cbn [bind].
      rewrite (proj2 (Exp_minus_one_nil q p) (conj Hp0 Hgcd)). reflexivity.
    + intros Hp1 Hq1 Hok.
      destruct (Z.eqb_spec (p - 1) 0) as [Hz | _]; [lia |].
      destruct (Z.eqb_spec (q - 1) 0) as [Hz | _]; [lia |].
      cbn [bind].
      destruct (big.Exp q (big.NewInt (-1)) p) as [coeff |] eqn:Hexp.
      * cbn [deref bind]. eexists. split; [reflexivity | discriminate].
      * apply Exp_minus_one_nil in Hexp. destruct Hexp as [Hp0 Hgcd].
        destruct Hok; contradiction.
Qed.

(** X2: the export loses nothing of a key with two different prime
    factors: two such keys with the same export for the same record have
    the same modulus, public exponent and private exponent (up to the
    sign, which the export does not write) and the same two primes. *)
Theorem PrivateKeyString_rsa_injective (r : RR_DNSKEY RestT)
    (t1 t2 : rsa.PrivateKey) (p1 q1 p2 q2 : Z) :
  rsa_primes t1 p1 q1 ->
  rsa_primes t2 p2 q2 ->
  PrivateKeyString r (RSAPrivateKey t1) = PrivateKeyString r (RSAPrivateKey t2) ->
  Z.abs (rsa.N (rsa.Public t1)) = Z.abs (rsa.N (rsa.Public t2)) /\
  Z.abs (rsa.E (rsa.Public t1)) = Z.abs (rsa.E (rsa.Public t2)) /\
  Z.abs (rsa.D t1) = Z.abs (rsa.D t2) /\
  p1 = p2 /\ q1 = q2.
Proof.
  intros Hk1 Hk2 Heq.
  destruct (PrivateKeyString_rsa r t1 p1 q1 Hk1) as (c1 & _ & _ & _ & Ht1).
  destruct (PrivateKeyString_rsa r t2 p2 q2 Hk2) as (c2 & _ & _ & _ & Ht2).
  rewrite Ht1, Ht2 in Heq. apply Returns_inj in Heq.
  assert (Hvalues :
    [ export_int (rsa.N (rsa.Public t1)); export_int (rsa.E (rsa.Public t1));
      export_int (rsa.D t1); export_int p1; export_int q1;
      export_int (rsa.D t1 mod (p1 - 1)); export_int (rsa.D t1 mod (q1 - 1));
      export_int c1 ] =
    [ export_int (rsa.N (rsa.Public t2)); export_int (rsa.E (rsa.Public t2));
      export_int (rsa.D t2); export_int p2; export_int q2;
      export_int (rsa.D t2 mod (p2 - 1)); export_int (rsa.D t2 mod (q2 - 1));
      export_int c2 ]).
  { apply (private_key_v13_inj "Algorithm"
             (strconv.Itoa (Algorithm r) ++ " (" ++ Alg_str (Algorithm r) ++ ")")
             [ "Modules"; "PublicExponent"; "PrivateExponent"; "Prime1"; "Prime2";
               "Exponent1"; "Exponent2"; "Coefficient" ]);
      try reflexivity;
      try (repeat constructor; apply export_int_no_newline).
    exact Heq. }
  injection Hvalues as HN HE HD Hp Hq _ _ _.
  apply export_int_inj in HN, HE, HD, Hp, Hq.
  destruct Hk1 as (_ & _ & Hp1 & Hq1 & _). destruct Hk2 as (_ & _ & Hp2 & Hq2 & _).
  apply prime_minus_one in Hp1, Hq1, Hp2, Hq2.
  repeat split; assumption || lia.
Qed.

(** *** More on Generate *)

Local Open Scope Z_scope.

Lemma case_of_false (x : N) (labels : list N) :
  case_of x labels = false -> ~ In x labels.
Proof.
  intros Hcase Hin. apply case_of_In in Hin. congruence.
Qed.

Lemma recognized_cases (alg : N) :
  rsa_family alg \/ alg = ECDSAP256SHA256Y \/ alg = ECDSAP384SHA384Y \/
  ~ recognized alg.
Proof.
  unfold rsa_family, recognized. cbn [In].
  destruct (N.eq_dec RSAMD5 alg); [auto |].
  destruct (N.eq_dec RSASHA1 alg); [auto |].
  destruct (N.eq_dec RSASHA256 alg); [auto |].
  destruct (N.eq_dec RSASHA1NSEC3SHA1 alg); [auto 6 |].
  destruct (N.eq_dec RSASHA512 alg); [auto 7 |].
  destruct (N.eq_dec ECDSAP256SHA256Y alg); [auto |].
  destruct (N.eq_dec ECDSAP384SHA384Y alg); [auto |].
  right. right. right. intros H.
  repeat (destruct H as [H | H]; [contradiction |]). exact H.
Qed.

Lemma unrecognized_Generate (r : RR_DNSKEY RestT) (bits : Z) (rnd : Rand) :
  ~ recognized (Algorithm r) ->
  Generate r bits rnd = (nilKey, Some ErrAlg, r, rnd).
Proof.
  unfold recognized. cbn [In]. intros Halg. split_not_or.
  unfold Generate, size_switch, generate_switch. switch_cases. reflexivity.
Qed.

Lemma rsa_case_error (r : RR_DNSKEY RestT) (bits : Z) (rnd : Rand) (e : error) :
  err_of (rsa_case r bits rnd) = Some e -> exists msg, e = LibraryError msg.
Proof.
  unfold rsa_case. destruct (rsa_GenerateKey rnd bits) as [rnd' [err | priv]];
    cbn; intros H; [injection H as <-; eauto | discriminate].
Qed.

Lemma ecdsa_case_error (r : RR_DNSKEY RestT) (c : elliptic.Curve) (rnd : Rand)
    (e : error) :
  err_of (ecdsa_case r c rnd) = Some e -> exists msg, e = LibraryError msg.
Proof.
  unfold ecdsa_case. destruct (ecdsa_GenerateKey c rnd) as [rnd' [err | priv]];
    cbn; intros H; [injection H as <-; eauto | discriminate].
Qed.

(** X3: a call of Generate that ends in one of the package's own errors,
    ErrKeySize or ErrAlg, has read nothing from the random source, has
    left the record as it was and hands back a nil key. *)
Theorem Generate_own_error_untouched (r : RR_DNSKEY RestT) (bits : Z) (rnd : Rand) :
  err_of (Generate r bits rnd) = Some ErrKeySize \/
  err_of (Generate r bits rnd) = Some ErrAlg ->
  key_of (Generate r bits rnd) = nilKey /\
  record_of (Generate r bits rnd) = r /\
  rand_of (Generate r bits rnd) = rnd.
Proof.
  unfold Generate.
  destruct (size_switch r bits) as [e |]; [cbn; auto |].
  unfold generate_switch.
  destruct (case_of (Algorithm r) _).
  - intros [H | H]; apply rsa_case_error in H; destruct H; discriminate.
  - destruct (case_of (Algorithm r) _).
    + intros [H | H]; apply ecdsa_case_error in H; destruct H; discriminate.
    + cbn. auto.
Qed.

(** X4: Generate ends in ErrAlg exactly when the Algorithm of the record
    is none of the seven recognized constants: a recognized algorithm is
    never refused as unsupported, whatever bits is and whatever the
    generator does. *)
Theorem Generate_ErrAlg_iff (r : RR_DNSKEY RestT) (bits : Z) (rnd : Rand) :
  err_of (Generate r bits rnd) = Some ErrAlg <-> ~ recognized (Algorithm r).
Proof.
  split.
  - intros Herr Hrec.
    assert (Hsize : forall e, size_switch r bits = Some e -> e = ErrKeySize).
    { intros e. unfold size_switch.
      repeat match goal with
             | |- context [if ?b then _ else _] => destruct b
             end; congruence. }
    unfold Generate in Herr.
    destruct (size_switch r bits) as [e |] eqn:Hs.
    + rewrite (Hsize e eq_refl) in Herr. discriminate.
    + unfold generate_switch in Herr.
      destruct (case_of (Algorithm r) _) eqn:Hrsa.
      * apply rsa_case_error in Herr. destruct Herr. discriminate.
      * destruct (case_of (Algorithm r) [ECDSAP256SHA256Y; ECDSAP384SHA384Y]) eqn:Hec.
        -- apply ecdsa_case_error in Herr. destruct Herr. discriminate.
        -- apply case_of_false in Hrsa. apply case_of_false in Hec.
           apply Hrsa. unfold recognized in Hrec. cbn [In] in Hrec, Hec |- *.
           destruct Hrec as [H | [H | [H | [H | [H | [H | [H | []]]]]]]]; auto 6;
             exfalso; apply Hec; auto.
  - intros Halg. rewrite unrecognized_Generate by assumption. reflexivity.
Qed.

(** X5: what a successful call of Generate has done.  Either the algorithm
    is of the RSA family, bits is in its range, the RSA generator was
    called once with bits and gave the key that is returned, and the
    record holds its public exponent and modulus; or the algorithm is one
    of the two ECDSA ones, bits is its size, the ECDSA generator was called
    once on its curve and gave the key that is returned, and the record
    holds its coordinates. *)
Theorem Generate_success (r : RR_DNSKEY RestT) (bits : Z) (rnd : Rand) :
  err_of (Generate r bits rnd) = None ->
  (rsa_family (Algorithm r) /\ rsa_bits_allowed (Algorithm r) bits /\
   exists priv rnd',
     rsa_GenerateKey rnd bits = (rnd', inr priv) /\
     Generate r bits rnd =
     (RSAPrivateKey priv, None,
      setPublicKeyRSA r (rsa.E (rsa.Public priv)) (rsa.N (rsa.Public priv)), rnd')) \/
  (Algorithm r = ECDSAP256SHA256Y /\ bits = 256 /\
   exists priv rnd',
     ecdsa_GenerateKey elliptic.P256 rnd = (rnd', inr priv) /\
     Generate r bits rnd =
     (ECDSAPrivateKey priv, None,
      setPublicKeyCurve r (ecdsa.X (ecdsa.Public priv)) (ecdsa.Y (ecdsa.Public priv)),
      rnd')) \/
  (Algorithm r = ECDSAP384SHA384Y /\ bits = 384 /\
   exists priv rnd',
     ecdsa_GenerateKey elliptic.P384 rnd = (rnd', inr priv) /\
     Generate r bits rnd =
     (ECDSAPrivateKey priv, None,
      setPublicKeyCurve r (ecdsa.X (ecdsa.Public priv)) (ecdsa.Y (ecdsa.Public priv)),
      rnd')).
Proof using algorithms_distinct.
  intros Herr.
  destruct (recognized_cases (Algorithm r)) as [Hfam | [Halg | [Halg | Halg]]].
  - left. split; [assumption |].
    assert (Hbits : rsa_bits_allowed (Algorithm r) bits).
    { unfold rsa_bits_allowed.
      destruct (Z.le_gt_cases (rsa_min_bits (Algorithm r)) bits) as [Hlo | Hlo];
        [destruct (Z.le_gt_cases bits 4096) as [Hhi | Hhi]; [lia |] |];
        rewrite rsa_not_allowed_Generate in Herr
          by (assumption || (unfold rsa_bits_allowed; lia));
        discriminate. }
    split; [assumption |].
    rewrite rsa_allowed_Generate in Herr |- * by assumption.
    unfold rsa_case in Herr |- *.
    destruct (rsa_GenerateKey rnd bits) as [rnd' [err | priv]]; [discriminate |].
    exists priv, rnd'. split; reflexivity.
  - right. left. split; [assumption |].
    destruct (Z.eq_dec bits 256) as [-> | Hneq];
      [| rewrite ecdsa_P256_wrong_size in Herr by assumption; discriminate].
    split; [reflexivity |].
    rewrite ecdsa_P256_Generate in Herr |- * by assumption.
    unfold ecdsa_case in Herr |- *.
    destruct (ecdsa_GenerateKey elliptic.P256 rnd) as [rnd' [err | priv]];
      [discriminate |].
    exists priv, rnd'. split; reflexivity.
  - right. right. split; [assumption |].
    destruct (Z.eq_dec bits 384) as [-> | Hneq];
      [| rewrite ecdsa_P384_wrong_size in Herr by assumption; discriminate].
    split; [reflexivity |].
    rewrite ecdsa_P384_Generate in Herr |- * by assumption.
    unfold ecdsa_case in Herr |- *.
    destruct (ecdsa_GenerateKey elliptic.P384 rnd) as [rnd' [err | priv]];
      [discriminate |].
    exists priv, rnd'. split; reflexivity.
  - rewrite unrecognized_Generate in Herr by assumption. discriminate.
Qed.


(** Generate reads nothing of the record but its Algorithm: two records
    with the same Algorithm (and the same other fields) fare alike. *)
Lemma Generate_reads_Algorithm (r1 r2 : RR_DNSKEY RestT) (bits : Z) (rnd : Rand) :
  Algorithm r1 = Algorithm r2 -> Rest r1 = Rest r2 ->
  key_of (Generate r1 bits rnd) = key_of (Generate r2 bits rnd) /\
  err_of (Generate r1 bits rnd) = err_of (Generate r2 bits rnd) /\
  rand_of (Generate r1 bits rnd) = rand_of (Generate r2 bits rnd) /\
  (err_of (Generate r2 bits rnd) = None ->
   record_of (Generate r1 bits rnd) = record_of (Generate r2 bits rnd)).
Proof.
  destruct r1 as [alg1 pub1 rest1], r2 as [alg2 pub2 rest2].
  cbn [Algorithm Rest]. intros <- <-.
  unfold Generate, size_switch, generate_switch, curve_switch, rsa_case, ecdsa_case,
    setPublicKeyRSA, setPublicKeyCurve.
  cbn [Algorithm Rest].
  repeat match goal with
         | |- context [if ?b then _ else _] => destruct b
         | |- context [rsa_GenerateKey ?a ?b] =>
             destruct (rsa_GenerateKey a b) as [? [? | ?]]
         | |- context [ecdsa_GenerateKey ?a ?b] =>
             destruct (ecdsa_GenerateKey a b) as [? [? | ?]]
         end;
    cbn; repeat split; try reflexivity; intros; discriminate.
Qed.

(** X6: Generate can be called again on a record that already holds a key:
    the key, the error and the random source of the second call are those
    of a call on the record as it was before the first one, and after a
    second success the record is the same too, the payload of the first
    key being replaced. *)
Theorem Generate_again (r : RR_DNSKEY RestT) (bits1 bits2 : Z) (rnd1 rnd2 : Rand) :
  key_of (Generate (record_of (Generate r bits1 rnd1)) bits2 rnd2) =
  key_of (Generate r bits2 rnd2) /\
  err_of (Generate (record_of (Generate r bits1 rnd1)) bits2 rnd2) =
  err_of (Generate r bits2 rnd2) /\
  rand_of (Generate (record_of (Generate r bits1 rnd1)) bits2 rnd2) =
  rand_of (Generate r bits2 rnd2) /\
  (err_of (Generate r bits2 rnd2) = None ->
   record_of (Generate (record_of (Generate r bits1 rnd1)) bits2 rnd2) =
   record_of (Generate r bits2 rnd2)).
Proof.
  apply Generate_reads_Algorithm.
  - unfold Generate.
    destruct (size_switch r bits1) as [e |]; [reflexivity |].
    unfold generate_switch.
    destruct (case_of (Algorithm r) _); [apply rsa_case_frame |].
    destruct (case_of (Algorithm r) _); [apply ecdsa_case_frame | reflexivity].
  - unfold Generate.
    destruct (size_switch r bits1) as [e |]; [reflexivity |].
    unfold generate_switch.
    destruct (case_of (Algorithm r) _); [apply rsa_case_frame |].
    destruct (case_of (Algorithm r) _); [apply ecdsa_case_frame | reflexivity].
Qed.

Local Open Scope string_scope.

(** X7: the two methods together.  When Generate hands back an RSA key
    (two different prime factors, a public exponent in the range of a
    non-negative int, a non-negative modulus), PrivateKeyString on the
    record as Generate left it and on this key returns the v1.3 text,
    labelled with the Algorithm of the record, and the PublicExponent and
    Modules values of the text are the exponent and modulus that the
    public-key payload of the record decodes to. *)
Theorem Generate_then_PrivateKeyString (r : RR_DNSKEY RestT) (bits : Z) (rnd : Rand)
    (priv : rsa.PrivateKey) (p q : Z) :
  key_of (Generate r bits rnd) = RSAPrivateKey priv ->
  rsa_primes priv p q ->
  (0 <= rsa.E (rsa.Public priv) < 2 ^ 63)%Z ->
  (0 <= rsa.N (rsa.Public priv))%Z ->
  exists (modulus publicExponent : string) (more : list (string * string)),
    PrivateKeyString (record_of (Generate r bits rnd)) (key_of (Generate r bits rnd)) =
    Returns (private_key_v13
               (("Algorithm",
                  strconv.Itoa (Algorithm r) ++ " (" ++ Alg_str (Algorithm r) ++ ")")
                  :: ("Modules", modulus)
                  :: ("PublicExponent", publicExponent) :: more)) /\
    exists (e : Z) (n : big.Int),
      decodeRSA (PublicKey (record_of (Generate r bits rnd))) = Some (e, n) /\
      packBase64Int publicExponent = Some e /\
      packBase64Int modulus = Some n.
Proof.
  intros Hkey Hprimes HE HN.
  assert (Hrecord :
    Algorithm (record_of (Generate r bits rnd)) = Algorithm r /\
    PublicKey (record_of (Generate r bits rnd)) =
    encodeRSA (rsa.E (rsa.Public priv)) (rsa.N (rsa.Public priv))).
  { unfold Generate in Hkey |- *.
    destruct (size_switch r bits) as [e |]; [discriminate |].
    unfold generate_switch in Hkey |- *.
    destruct (case_of (Algorithm r) _).
    - unfold rsa_case in Hkey |- *.
      destruct (rsa_GenerateKey rnd bits) as [rnd' [err | priv']]; [discriminate |].
      cbn in Hkey. injection Hkey as ->. cbn. auto.
    - destruct (case_of (Algorithm r) _); [| discriminate].
      unfold ecdsa_case in Hkey.
      destruct (ecdsa_GenerateKey (curve_switch r) rnd) as [rnd' [err | priv']];
        discriminate. }
  destruct Hrecord as [Halg Hpub].
  rewrite Hkey.
  destruct (PrivateKeyString_rsa (record_of (Generate r bits rnd)) priv p q Hprimes)
    as (coeff & _ & _ & _ & Htext).
  rewrite Htext, Halg, Hpub.
  eexists _, _, _. split; [reflexivity |].
  exists (rsa.E (rsa.Public priv)), (rsa.N (rsa.Public priv)).
  split; [apply decodeRSA_encodeRSA; assumption |].
  unfold export_int. rewrite !packBase64Int_unpackBase64.
  rewrite !Z.abs_eq by lia. auto.
Qed.

End keygen.

(** ** The theorems at concrete keys, records and generators *)

Lemma demo_algorithms_distinct : NoDup [1; 5; 8; 7; 10; 13; 14]%N.
Proof. repeat constructor; cbn; intuition discriminate. Defined.

Lemma demo_rsa_key_primes : rsa_primes demo_rsa_key 61 53.
Proof.
  unfold rsa_primes.
  split; [reflexivity |]. split; [reflexivity |].
  split; [apply primeb_sound; vm_compute; reflexivity |].
  split; [apply primeb_sound; vm_compute; reflexivity |].
  discriminate.
Defined.

Lemma C1_crt_parameters_witness :
  rsa_primes demo_rsa_key 61 53 /\
  exists (fields : list (string * string)) (exponent1 exponent2 coefficient : big.Int),
    demo_PrivateKeyString (demo_record 8) (RSAPrivateKey demo_rsa_key) =
    Returns (private_key_v13
               (fields ++ [ ("Exponent1"%string, export_int exponent1);
                            ("Exponent2"%string, export_int exponent2);
                            ("Coefficient"%string, export_int coefficient) ])) /\
    exponent1 = 2753 mod (61 - 1) /\
    exponent2 = 2753 mod (53 - 1) /\
    0 <= coefficient < 61 /\
    (coefficient * 53) mod 61 = 1 /\
    packBase64Int (export_int exponent1) = Some exponent1 /\
    packBase64Int (export_int exponent2) = Some exponent2 /\
    packBase64Int (export_int coefficient) = Some coefficient.
Proof.
  split; [exact demo_rsa_key_primes |].
  exact (C1_crt_parameters demo_Alg_str (demo_record 8) demo_rsa_key 61 53
           demo_rsa_key_primes).
Defined.

(** The three values of the concrete key: 53, 49 and 38. *)
Example demo_crt_values :
  2753 mod (61 - 1) = 53 /\ 2753 mod (53 - 1) = 49 /\
  big.Exp 53 (big.NewInt (-1)) 61 = Some 38 /\ (38 * 53) mod 61 = 1.
Proof. vm_compute. repeat split. Qed.

Lemma C2_private_key_format_witness :
  rsa_primes demo_rsa_key 61 53 /\
  (exists coeff : big.Int,
     big.Exp 53 (big.NewInt (-1)) 61 = Some coeff /\
     let fields :=
       [ ("Algorithm", "8 (RSASHA256)");
         ("Modules", export_int 3233);
         ("PublicExponent", export_int 65537);
         ("PrivateExponent", export_int 2753);
         ("Prime1", export_int 61);
         ("Prime2", export_int 53);
         ("Exponent1", export_int 53);
         ("Exponent2", export_int 49);
         ("Coefficient", export_int coeff) ]%string in
     demo_PrivateKeyString (demo_record 8) (RSAPrivateKey demo_rsa_key) =
     Returns (private_key_v13 fields) /\
     (no_newline (demo_Alg_str 8) = true ->
      lines (private_key_v13 fields) =
      "Private-key-format: v1.3"%string :: map key_value fields)) /\
  (forall x : big.Int,
     export_int x = base64.EncodeToString (big.Bytes x) /\
     base64.DecodeString (export_int x) = Some (big.Bytes x) /\
     big.SetBytes (big.Bytes x) = Z.abs x /\
     hd 1 (big.Bytes x) <> 0).
Proof.
  split; [exact demo_rsa_key_primes |].
  exact (C2_private_key_format demo_Alg_str (demo_record 8) demo_rsa_key 61 53
           demo_rsa_key_primes).
Defined.

(** The text of the export of the concrete key, in full. *)
Example demo_private_key_text :
  demo_PrivateKeyString (demo_record 8) (RSAPrivateKey demo_rsa_key) =
  Returns
    ("Private-key-format: v1.3" ++ String "010"
    ("Algorithm: 8 (RSASHA256)" ++ String "010"
    ("Modules: DKE=" ++ String "010"
    ("PublicExponent: AQAB" ++ String "010"
    ("PrivateExponent: CsE=" ++ String "010"
    ("Prime1: PQ==" ++ String "010"
    ("Prime2: NQ==" ++ String "010"
    ("Exponent1: NQ==" ++ String "010"
    ("Exponent2: MQ==" ++ String "010"
    ("Coefficient: Jg==" ++ String "010" EmptyString))))))))))%string.
Proof. vm_compute. reflexivity. Qed.

(** The lines of that text. *)
Example demo_private_key_lines :
  option_map lines
    (match demo_PrivateKeyString (demo_record 8) (RSAPrivateKey demo_rsa_key) with
     | Returns text => Some text
     | Panics _ => None
     end) =
  Some [ "Private-key-format: v1.3"; "Algorithm: 8 (RSASHA256)"; "Modules: DKE=";
         "PublicExponent: AQAB"; "PrivateExponent: CsE="; "Prime1: PQ==";
         "Prime2: NQ=="; "Exponent1: NQ=="; "Exponent2: MQ==";
         "Coefficient: Jg==" ]%string.
Proof. vm_compute. reflexivity. Qed.

(** What the condition on the prime factors keeps out: a key without
    factors, a factor 1, and twice the same prime make the Go code panic. *)
Example demo_malformed_keys :
  let key primes :=
    RSAPrivateKey {| rsa.Public := {| rsa.N := 3233; rsa.E := 65537 |};
                     rsa.D := 2753; rsa.Primes := primes |} in
  demo_PrivateKeyString (demo_record 8) (key []) = Panics IndexOutOfRange /\
  demo_PrivateKeyString (demo_record 8) (key [61]) = Panics IndexOutOfRange /\
  demo_PrivateKeyString (demo_record 8) (key [1; 53]) = Panics DivisionByZero /\
  demo_PrivateKeyString (demo_record 8) (key [61; 61]) = Panics NilDereference.
Proof. vm_compute. repeat split. Qed.

Lemma demo_rsa_family : rsa_family 1 5 8 7 10 (Algorithm (demo_record 8)).
Proof. unfold rsa_family. cbn. auto 6. Defined.

Lemma demo_rsa_bits_refused : ~ rsa_bits_allowed 10 (Algorithm (demo_record 8)) 511.
Proof. unfold rsa_bits_allowed. cbn. lia. Defined.

Lemma C3_rsa_key_size_witness :
  NoDup [1; 5; 8; 7; 10; 13; 14]%N /\
  rsa_family 1 5 8 7 10 (Algorithm (demo_record 8)) /\
  ~ rsa_bits_allowed 10 (Algorithm (demo_record 8)) 511 /\
  demo_Generate demo_rsa_GenerateKey demo_ecdsa_GenerateKey (demo_record 8) 511 0%nat
  = (nilKey, Some ErrKeySize, demo_record 8, 0%nat).
Proof.
  split; [exact demo_algorithms_distinct |].
  split; [exact demo_rsa_family |].
  split; [exact demo_rsa_bits_refused |].
  exact (proj1 (proj2 (C3_rsa_key_size 1 5 8 7 10 13 14 demo_algorithms_distinct
                         demo_rsa_GenerateKey demo_ecdsa_GenerateKey
                         (demo_record 8) 511 0%nat demo_rsa_family))
           demo_rsa_bits_refused).
Defined.

(** The bounds of the RSA sizes on the concrete record: 511 and 4097 are
    refused, 512 and 4096 pass; for RSA-SHA512 1023 is refused and 1024
    passes.  A refused call has not read the random source. *)
Example demo_rsa_size_bounds :
  let gen := demo_Generate demo_rsa_GenerateKey demo_ecdsa_GenerateKey in
  gen (demo_record 8) 511 0%nat = (nilKey, Some ErrKeySize, demo_record 8, 0%nat) /\
  err_of (gen (demo_record 8) 512 0%nat) = None /\
  err_of (gen (demo_record 8) 4096 0%nat) = None /\
  gen (demo_record 8) 4097 0%nat = (nilKey, Some ErrKeySize, demo_record 8, 0%nat) /\
  gen (demo_record 10) 1023 0%nat = (nilKey, Some ErrKeySize, demo_record 10, 0%nat) /\
  err_of (gen (demo_record 10) 1024 0%nat) = None /\
  rand_of (gen (demo_record 10) 1024 0%nat) = 1%nat.
Proof. vm_compute. repeat split. Qed.

Lemma C4_ecdsa_key_size_witness :
  NoDup [1; 5; 8; 7; 10; 13; 14]%N /\
  Algorithm (demo_record 13) = 13%N /\
  257 <> 256 /\
  demo_Generate demo_rsa_GenerateKey demo_ecdsa_GenerateKey (demo_record 13) 257 0%nat
  = (nilKey, Some ErrKeySize, demo_record 13, 0%nat) /\
  demo_ecdsa_GenerateKey elliptic.P256 0%nat
  = (1%nat, inr (demo_ecdsa_key elliptic.P256)) /\
  demo_Generate demo_rsa_GenerateKey demo_ecdsa_GenerateKey (demo_record 13) 256 0%nat
  = (ECDSAPrivateKey (demo_ecdsa_key elliptic.P256), None,
     setPublicKeyCurve (demo_record 13) 7 11, 1%nat).
Proof.
  split; [exact demo_algorithms_distinct |].
  split; [reflexivity |].
  split; [discriminate |].
  split.
  - refine (proj1 (proj1 (C4_ecdsa_key_size 1 5 8 7 10 13 14 demo_algorithms_distinct
                            demo_rsa_GenerateKey demo_ecdsa_GenerateKey
                            (demo_record 13) 257 0%nat) eq_refl) _).
    discriminate.
  - split; [reflexivity |].
    exact (proj1 (proj2 (proj1 (C4_ecdsa_key_size 1 5 8 7 10 13 14
                                  demo_algorithms_distinct
                                  demo_rsa_GenerateKey demo_ecdsa_GenerateKey
                                  (demo_record 13) 256 0%nat) eq_refl)) eq_refl).
Defined.

(** The ECDSA sizes on concrete records: 255 and 257 are refused for
    P-256, 256 gives a key on P-256; 384 gives a key on P-384 and 256 is
    refused there. *)
Example demo_ecdsa_sizes :
  let gen := demo_Generate demo_rsa_GenerateKey demo_ecdsa_GenerateKey in
  err_of (gen (demo_record 13) 255 0%nat) = Some ErrKeySize /\
  err_of (gen (demo_record 13) 257 0%nat) = Some ErrKeySize /\
  key_of (gen (demo_record 13) 256 0%nat) = ECDSAPrivateKey (demo_ecdsa_key elliptic.P256) /\
  key_of (gen (demo_record 14) 384 0%nat) = ECDSAPrivateKey (demo_ecdsa_key elliptic.P384) /\
  err_of (gen (demo_record 14) 256 0%nat) = Some ErrKeySize.
Proof. vm_compute. repeat split. Qed.

Lemma demo_unrecognized : ~ recognized 1 5 8 7 10 13 14 (Algorithm (demo_record 3)).
Proof. unfold recognized. cbn. intuition discriminate. Defined.

Lemma C5_unsupported_algorithm_witness :
  ~ recognized 1 5 8 7 10 13 14 (Algorithm (demo_record 3)) /\
  size_switch 1 5 8 7 10 13 14 (demo_record 3) 1024 = None /\
  demo_Generate demo_rsa_GenerateKey demo_ecdsa_GenerateKey (demo_record 3) 1024 0%nat
  = (nilKey, Some ErrAlg, demo_record 3, 0%nat).
Proof.
  split; [exact demo_unrecognized |].
  exact (C5_unsupported_algorithm 1 5 8 7 10 13 14
           demo_rsa_GenerateKey demo_ecdsa_GenerateKey (demo_record 3) 1024 0%nat
           demo_unrecognized).
Defined.

(** C6 as the claim states it fails: for a private key that is neither an
    RSA nor an ECDSA key (the nil interface, a value of another type) the
    call returns, and what it returns is the empty string. *)
Lemma C6_counterexample :
  demo_PrivateKeyString (demo_record 8) nilKey = Returns EmptyString /\
  demo_PrivateKeyString (demo_record 8) (OtherValue "*dsa.PrivateKey") =
  Returns EmptyString.
Proof. split; reflexivity. Qed.

Lemma C6_export_results_witness :
  rsa_primes demo_rsa_key 61 53 /\
  exists s : string,
    demo_PrivateKeyString (demo_record 8) (RSAPrivateKey demo_rsa_key) = Returns s /\
    s <> EmptyString.
Proof.
  split; [exact demo_rsa_key_primes |].
  exact (C6_export_results demo_Alg_str (demo_record 8) (RSAPrivateKey demo_rsa_key)
           61 53 demo_rsa_key_primes).
Defined.

(** C7 as the claim states it fails: the error that comes back is the
    error of the library itself, so no one distinguished error stands for
    every failure of the generator. *)
Lemma C7_counterexample :
  err_of (demo_Generate (failing_rsa_GenerateKey "unexpected EOF")
            demo_ecdsa_GenerateKey (demo_record 8) 1024 0%nat)
  = Some (LibraryError "unexpected EOF") /\
  ~ (exists KeyGenerationFailed : error,
       forall msg : string,
         err_of (demo_Generate (failing_rsa_GenerateKey msg)
                   demo_ecdsa_GenerateKey (demo_record 8) 1024 0%nat)
         = Some KeyGenerationFailed).
Proof.
  split; [reflexivity |].
  intros (e & He).
  pose proof (He "a"%string) as Ha. pose proof (He "b"%string) as Hb.
  vm_compute in Ha, Hb. congruence.
Qed.

Lemma demo_rsa_bits_allowed : rsa_bits_allowed 10 (Algorithm (demo_record 8)) 1024.
Proof. unfold rsa_bits_allowed. cbn. lia. Defined.

Lemma C7_generation_failure_witness :
  NoDup [1; 5; 8; 7; 10; 13; 14]%N /\
  rsa_family 1 5 8 7 10 (Algorithm (demo_record 8)) /\
  rsa_bits_allowed 10 (Algorithm (demo_record 8)) 1024 /\
  failing_rsa_GenerateKey "unexpected EOF" 0%nat 1024 = (1%nat, inl "unexpected EOF"%string) /\
  demo_Generate (failing_rsa_GenerateKey "unexpected EOF") demo_ecdsa_GenerateKey
    (demo_record 8) 1024 0%nat
  = (nilKey, Some (LibraryError "unexpected EOF"), demo_record 8, 1%nat).
Proof.
  split; [exact demo_algorithms_distinct |].
  split; [exact demo_rsa_family |].
  split; [exact demo_rsa_bits_allowed |].
  split; [reflexivity |].
  exact (proj1 (C7_generation_failure 1 5 8 7 10 13 14 demo_algorithms_distinct
                  (failing_rsa_GenerateKey "unexpected EOF") demo_ecdsa_GenerateKey
                  (demo_record 8) 1024 0%nat 1%nat "unexpected EOF")
           demo_rsa_family demo_rsa_bits_allowed eq_refl).
Defined.

Lemma C9_rsa_public_key_round_trip_witness :
  rsa_family 1 5 8 7 10 (Algorithm (demo_record 8)) /\
  err_of (demo_Generate demo_rsa_GenerateKey demo_ecdsa_GenerateKey
            (demo_record 8) 1024 0%nat) = None /\
  exists priv : rsa.PrivateKey,
    key_of (demo_Generate demo_rsa_GenerateKey demo_ecdsa_GenerateKey
              (demo_record 8) 1024 0%nat) = RSAPrivateKey priv /\
    0 <= rsa.E (rsa.Public priv) < 2 ^ 63 /\
    0 <= rsa.N (rsa.Public priv) /\
    decodeRSA (PublicKey (record_of (demo_Generate demo_rsa_GenerateKey
                                       demo_ecdsa_GenerateKey
                                       (demo_record 8) 1024 0%nat))) =
    Some (rsa.E (rsa.Public priv), rsa.N (rsa.Public priv)).
Proof.
  split; [exact demo_rsa_family |].
  split; [reflexivity |].
  destruct (C9_rsa_public_key_round_trip 1 5 8 7 10 13 14
              demo_rsa_GenerateKey demo_ecdsa_GenerateKey (demo_record 8) 1024 0%nat
              demo_rsa_family eq_refl) as (priv & Hkey & _ & Hdecode).
  exists priv.
  assert (Hpriv : priv = demo_rsa_key)
    by (cbv in Hkey; injection Hkey as Hkey; symmetry; exact Hkey).
  assert (HE : 0 <= rsa.E (rsa.Public priv) < 2 ^ 63) by (rewrite Hpriv; cbn; lia).
  assert (HN : 0 <= rsa.N (rsa.Public priv)) by (rewrite Hpriv; cbn; lia).
  split; [exact Hkey |].
  split; [exact HE |].
  split; [exact HN |].
  exact (Hdecode HE HN).
Defined.

(** The payload written for the concrete key, and what it decodes to. *)
Example demo_rsa_payload :
  PublicKey (record_of (demo_Generate demo_rsa_GenerateKey demo_ecdsa_GenerateKey
                          (demo_record 8) 1024 0%nat)) = [3; 1; 0; 1; 12; 161] /\
  decodeRSA [3; 1; 0; 1; 12; 161] = Some (65537, 3233).
Proof. vm_compute. split; reflexivity. Qed.

(** ** The further properties at concrete keys, records and generators *)

Lemma PrivateKeyString_rsa_outcomes_witness :
  nth_error (rsa.Primes (demo_rsa_key_with [61; 61])) 0 = Some 61 /\
  nth_error (rsa.Primes (demo_rsa_key_with [61; 61])) 1 = Some 61 /\
  61 <> 1 /\ 61 <> 0 /\ Z.gcd 61 61 <> 1 /\
  demo_PrivateKeyString (demo_record 8) (RSAPrivateKey (demo_rsa_key_with [61; 61]))
  = Panics NilDereference.
Proof.
  assert (H1 : 61 <> 1) by discriminate.
  assert (H0 : 61 <> 0) by discriminate.
  assert (Hg : Z.gcd 61 61 <> 1) by (vm_compute; discriminate).
  repeat (split; [reflexivity || assumption |]).
  exact (proj1 (proj2 (proj2 (PrivateKeyString_rsa_outcomes demo_Alg_str (demo_record 8)
                                 (demo_rsa_key_with [61; 61]))
                         61 61 eq_refl eq_refl))
           H1 H1 H0 Hg).
Defined.

Lemma PrivateKeyString_rsa_injective_witness :
  rsa_primes demo_rsa_key 61 53 /\
  rsa_primes (demo_rsa_key_with [61; 53; 7]) 61 53 /\
  demo_PrivateKeyString (demo_record 8) (RSAPrivateKey demo_rsa_key) =
  demo_PrivateKeyString (demo_record 8) (RSAPrivateKey (demo_rsa_key_with [61; 53; 7])) /\
  Z.abs (rsa.N (rsa.Public demo_rsa_key)) =
  Z.abs (rsa.N (rsa.Public (demo_rsa_key_with [61; 53; 7]))) /\
  Z.abs (rsa.E (rsa.Public demo_rsa_key)) =
  Z.abs (rsa.E (rsa.Public (demo_rsa_key_with [61; 53; 7]))) /\
  Z.abs (rsa.D demo_rsa_key) = Z.abs (rsa.D (demo_rsa_key_with [61; 53; 7])) /\
  61 = 61 /\ 53 = 53.
Proof.
  split; [exact demo_rsa_key_primes |].
  split; [exact demo_rsa_key_primes |].
  split; [reflexivity |].
  exact (PrivateKeyString_rsa_injective demo_Alg_str (demo_record 8)
           demo_rsa_key (demo_rsa_key_with [61; 53; 7]) 61 53 61 53
           demo_rsa_key_primes demo_rsa_key_primes eq_refl).
Defined.

Lemma Generate_own_error_untouched_witness :
  (err_of (demo_Generate demo_rsa_GenerateKey demo_ecdsa_GenerateKey
             (demo_record 3) 1024 0%nat) = Some ErrKeySize \/
   err_of (demo_Generate demo_rsa_GenerateKey demo_ecdsa_GenerateKey
             (demo_record 3) 1024 0%nat) = Some ErrAlg) /\
  key_of (demo_Generate demo_rsa_GenerateKey demo_ecdsa_GenerateKey
            (demo_record 3) 1024 0%nat) = nilKey /\
  record_of (demo_Generate demo_rsa_GenerateKey demo_ecdsa_GenerateKey
               (demo_record 3) 1024 0%nat) = demo_record 3 /\
  rand_of (demo_Generate demo_rsa_GenerateKey demo_ecdsa_GenerateKey
             (demo_record 3) 1024 0%nat) = 0%nat.
Proof.
  split; [right; reflexivity |].
  exact (Generate_own_error_untouched 1 5 8 7 10 13 14
           demo_rsa_GenerateKey demo_ecdsa_GenerateKey (demo_record 3) 1024 0%nat
           (or_intror eq_refl)).
Defined.

Lemma Generate_success_witness :
  NoDup [1; 5; 8; 7; 10; 13; 14]%N /\
  err_of (demo_Generate demo_rsa_GenerateKey demo_ecdsa_GenerateKey
            (demo_record 14) 384 0%nat) = None /\
  exists (priv : ecdsa.PrivateKey) (rnd' : nat),
    demo_ecdsa_GenerateKey elliptic.P384 0%nat = (rnd', inr priv) /\
    demo_Generate demo_rsa_GenerateKey demo_ecdsa_GenerateKey (demo_record 14) 384 0%nat =
    (ECDSAPrivateKey priv, None,
     setPublicKeyCurve (demo_record 14)
       (ecdsa.X (ecdsa.Public priv)) (ecdsa.Y (ecdsa.Public priv)),
     rnd').
Proof.
  split; [exact demo_algorithms_distinct |].
  split; [reflexivity |].
  destruct (Generate_success 1 5 8 7 10 13 14 demo_algorithms_distinct
              demo_rsa_GenerateKey demo_ecdsa_GenerateKey (demo_record 14) 384 0%nat
              eq_refl)
    as [(_ & [Hlo Hhi] & _) | [(Halg & _) | (_ & _ & Hgen)]].
  - exfalso. apply Hlo. reflexivity.
  - discriminate Halg.
  - exact Hgen.
Defined.

Lemma Generate_then_PrivateKeyString_witness :
  key_of (demo_Generate demo_rsa_GenerateKey demo_ecdsa_GenerateKey
            (demo_record 8) 1024 0%nat) = RSAPrivateKey demo_rsa_key /\
  rsa_primes demo_rsa_key 61 53 /\
  0 <= rsa.E (rsa.Public demo_rsa_key) < 2 ^ 63 /\
  0 <= rsa.N (rsa.Public demo_rsa_key) /\
  exists (modulus publicExponent : string) (more : list (string * string)),
    demo_PrivateKeyString
      (record_of (demo_Generate demo_rsa_GenerateKey demo_ecdsa_GenerateKey
                    (demo_record 8) 1024 0%nat))
      (key_of (demo_Generate demo_rsa_GenerateKey demo_ecdsa_GenerateKey
                 (demo_record 8) 1024 0%nat)) =
    Returns (private_key_v13
               (("Algorithm", "8 (RSASHA256)")
                  :: ("Modules", modulus)
                  :: ("PublicExponent", publicExponent) :: more)%string) /\
    exists (e : Z) (n : big.Int),
      decodeRSA (PublicKey (record_of (demo_Generate demo_rsa_GenerateKey
                                         demo_ecdsa_GenerateKey
                                         (demo_record 8) 1024 0%nat))) = Some (e, n) /\
      packBase64Int publicExponent = Some e /\
      packBase64Int modulus = Some n.
Proof.
  assert (HE : 0 <= rsa.E (rsa.Public demo_rsa_key) < 2 ^ 63) by (cbn; lia).
  assert (HN : 0 <= rsa.N (rsa.Public demo_rsa_key)) by (cbn; lia).
  split; [reflexivity |].
  split; [exact demo_rsa_key_primes |].
  split; [exact HE |]. split; [exact HN |].
  exact (Generate_then_PrivateKeyString 1 5 8 7 10 13 14 demo_Alg_str
           demo_rsa_GenerateKey demo_ecdsa_GenerateKey (demo_record 8) 1024 0%nat
           demo_rsa_key 61 53 eq_refl demo_rsa_key_primes HE HN).
Defined.
